(** * Amazon Niche Finder: a shallow embedding of [amazon_search.py]

    The script is one linear pipeline: fetch keyword suggestions, fetch a
    result count for each suggestion, filter by a threshold, sort, print and
    append to a log file.  This development embeds it in Rocq and proves the
    properties its specification states about it.

    Conventions.
    - A Python [str] is a [string] whose characters are code points below
      256; in that range [\d] is ['0'..'9'] and [\s] is the set listed in
      [is_space].
    - Python integers are [Z].
    - Code that can raise runs in the monad [M]: a state-passing function
      that ends with a returned value or with a raised exception.
    - What the outside world does (the server's replies, the operator's
      Ctrl-C, a failing disk) is an [environment], read at every step
      through the step counter of the [world]. *)

From Stdlib Require Import ZArith List String Ascii Bool Lia Arith.
From Stdlib Require Import Sorting.Sorted Sorting.Permutation.
Import ListNotations.

Set Warnings "-register-all".

Local Open Scope string_scope.
Local Open Scope list_scope.
Local Open Scope Z_scope.

(* ================================================================== *)
(** * Configuration constants (lines 22-29, 56-68) *)

Definition MAX_RETRIES : Z := 3.
Definition BACKOFF_FACTOR : Z := 1.
Definition RETRY_STATUS_CODES : list Z := [429; 500; 502; 503; 504].
Definition REQUEST_TIMEOUT : Z := 10.
Definition MIN_DELAY : Z := 2.
Definition MAX_DELAY : Z := 7.
Definition LOW_COMPETITION_THRESHOLD : Z := 2000.

Definition BASE_URL : string := "https://www.amazon.com/s".
Definition SUGGESTION_URL : string :=
  "https://completion.amazon.com/api/2017/suggestions".

Definition HEADERS : list (string * string) :=
  [ ("User-Agent",
     "Mozilla/5.0 (Windows NT 10.0; Win64; x64) AppleWebKit/537.36 (KHTML, like Gecko) Chrome/114.0.0.0 Safari/537.36");
    ("Accept", "application/json, text/javascript, */*; q=0.01");
    ("Accept-Language", "en-US,en;q=0.5");
    ("DNT", "1");
    ("Connection", "keep-alive");
    ("Referer", "https://www.amazon.com/");
    ("Sec-Fetch-Dest", "empty");
    ("Sec-Fetch-Mode", "cors");
    ("Sec-Fetch-Site", "same-site") ].

(* ================================================================== *)
(** * Text: characters, [re.search] and [int] *)

Module Text.

Definition chars := list ascii.

Definition code (c : ascii) : N := N_of_ascii c.

(** [\d] on code points below 256. *)
Definition is_digit (c : ascii) : bool :=
  (48 <=? code c)%N && (code c <=? 57)%N.

(** [\s] on code points below 256: tab, LF, VT, FF, CR, the four
    separators FS GS RS US, space, NEL and the no-break space. *)
Definition is_space (c : ascii) : bool :=
  ((9 <=? code c)%N && (code c <=? 13)%N)
  || ((28 <=? code c)%N && (code c <=? 32)%N)
  || (code c =? 133)%N || (code c =? 160)%N.

Definition is_comma (c : ascii) : bool := (code c =? 44)%N.

(** The class [[\d,]]. *)
Definition is_digit_or_comma (c : ascii) : bool := is_digit c || is_comma c.

Definition digit_value (c : ascii) : Z := Z.of_N (code c) - 48.

(** ** Regular expressions

    The fragment of Python's [re] syntax that the four patterns use: a
    literal character, a character class, concatenation, a greedy star
    over a class and a capturing group (there is one group, number 1). *)
Inductive regex : Type :=
| Chr (c : ascii)
| Cls (p : ascii -> bool)
| Cat (r1 r2 : regex)
| StarCls (p : ascii -> bool)
| Grp (r : regex).

(** [x+] for a class. *)
Definition PlusCls (p : ascii -> bool) : regex := Cat (Cls p) (StarCls p).

(** A literal word. *)
Fixpoint Lit (w : chars) (after : regex) : regex :=
  match w with
  | [] => after
  | c :: w' => Cat (Chr c) (Lit w' after)
  end.

(** The empty regex, as the end of a literal. *)
Definition Eps : regex := StarCls (fun _ => false).

Section Matcher.
Context {A : Type}.

(** Greedy star with backtracking: take one more character when the
    class allows it and the rest of the pattern then succeeds, and
    otherwise stop here. *)
Fixpoint star_cls (p : ascii -> bool) (s : chars)
         (k : chars -> option A) : option A :=
  match s with
  | c :: s' =>
      if p c
      then match star_cls p s' k with
           | Some a => Some a
           | None => k s
           end
      else k s
  | [] => k s
  end.

(** [rmatch r g s k]: match [r] at the head of [s] with group 1 so far
    [g], and hand the group and the rest of the input to [k]; the first
    success in Python's order of alternatives wins. *)
Fixpoint rmatch (r : regex) (g : option chars) (s : chars)
         (k : option chars -> chars -> option A) : option A :=
  match r with
  | Chr c =>
      match s with
      | x :: s' => if Ascii.eqb x c then k g s' else None
      | [] => None
      end
  | Cls p =>
      match s with
      | x :: s' => if p x then k g s' else None
      | [] => None
      end
  | Cat r1 r2 => rmatch r1 g s (fun g' s' => rmatch r2 g' s' k)
  | StarCls p => star_cls p s (k g)
  | Grp r1 =>
      rmatch r1 g s
        (fun _ rest =>
           k (Some (firstn (List.length s - List.length rest) s)) rest)
  end.
End Matcher.

(** [re.search(pattern, text)]: the leftmost position at which the pattern
    matches; the result is the match's group 1. *)
Fixpoint search_from (r : regex) (s : chars) : option (option chars) :=
  match rmatch r None s (fun g _ => Some g) with
  | Some g => Some g
  | None =>
      match s with
      | [] => None
      | _ :: s' => search_from r s'
      end
  end.

Definition re_search (r : regex) (text : string) : option (option chars) :=
  search_from r (list_ascii_of_string text).

(** ** [str.replace(',', '')] *)
Definition remove_commas (s : chars) : chars :=
  filter (fun c => negb (is_comma c)) s.

(** ** [int(s)] for a [str]

    Surrounding whitespace is stripped, one sign is allowed, and the rest
    is decimal digits with single underscores between digits.  [None] is
    [ValueError].  (An interpreter's limit on the number of digits is not
    modelled.) *)
Fixpoint lstrip (s : chars) : chars :=
  match s with
  | c :: s' => if is_space c then lstrip s' else s
  | [] => []
  end.

Definition strip (s : chars) : chars := rev (lstrip (rev (lstrip s))).

Definition is_underscore (c : ascii) : bool := (code c =? 95)%N.

Fixpoint digits_acc (prev_digit : bool) (acc : Z) (s : chars) : option Z :=
  match s with
  | [] => if prev_digit then Some acc else None
  | c :: s' =>
      if is_digit c then digits_acc true (10 * acc + digit_value c) s'
      else if is_underscore c
           then (if prev_digit then digits_acc false acc s' else None)
           else None
  end.

Definition py_int (s : chars) : option Z :=
  match strip s with
  | c :: body =>
      if (code c =? 45)%N then option_map Z.opp (digits_acc false 0 body)
      else if (code c =? 43)%N then digits_acc false 0 body
      else digits_acc false 0 (c :: body)
  | [] => None
  end.

End Text.

(* ================================================================== *)
(** * Parsed pages: the part of BeautifulSoup that the script uses *)

Module Soup.

(** An attribute's value as the parser stores it: one string, or for a
    multi-valued attribute such as [class] the list of its tokens. *)
Inductive attr_value : Type :=
| Single (s : string)
| Multi (tokens : list string).

(** A parsed page is a forest of text nodes and tags. *)
Inductive node : Type :=
| NText (s : string)
| NTag (name : string) (attrs : list (string * attr_value))
       (children : list node).

Definition soup := list node.

Fixpoint lookup_attr (k : string) (attrs : list (string * attr_value))
  : option attr_value :=
  match attrs with
  | [] => None
  | (k', v) :: rest => if String.eqb k' k then Some v else lookup_attr k rest
  end.

(** A string filter matches a multi-valued attribute when it equals one
    token or the tokens joined by single spaces. *)
Definition attr_matches (wanted : string) (v : attr_value) : bool :=
  match v with
  | Single s => String.eqb s wanted
  | Multi tokens =>
      existsb (fun t => String.eqb t wanted) tokens
      || String.eqb (String.concat " " tokens) wanted
  end.

Definition tag_matches (tag : string) (filt : list (string * string))
           (name : string) (attrs : list (string * attr_value)) : bool :=
  String.eqb name tag
  && forallb (fun kv =>
                match lookup_attr (fst kv) attrs with
                | Some v => attr_matches (snd kv) v
                | None => false
                end) filt.

(** [find]: the first matching tag in document order below a node. *)
Fixpoint find_node (tag : string) (filt : list (string * string))
         (n : node) : option node :=
  match n with
  | NText _ => None
  | NTag name attrs children =>
      if tag_matches tag filt name attrs then Some n
      else (fix in_children (l : list node) : option node :=
              match l with
              | [] => None
              | c :: l' =>
                  match find_node tag filt c with
                  | Some r => Some r
                  | None => in_children l'
                  end
              end) children
  end.

(** [soup.find(tag, attrs)]. *)
Fixpoint find (tag : string) (filt : list (string * string))
         (page : soup) : option node :=
  match page with
  | [] => None
  | n :: rest =>
      match find_node tag filt n with
      | Some r => Some r
      | None => find tag filt rest
      end
  end.

(** [element.get_text()]: all the text below the element, in order. *)
Fixpoint get_text (n : node) : string :=
  match n with
  | NText s => s
  | NTag _ _ children =>
      (fix of_children (l : list node) : string :=
         match l with
         | [] => ""
         | c :: l' => (get_text c ++ of_children l')%string
         end) children
  end.

End Soup.

(* ================================================================== *)
(** * Python values: what [response.json()] returns *)

Inductive value : Type :=
| VNone
| VBool (b : bool)
| VNum (literal : string)
| VStr (s : string)
| VList (items : list value)
| VDict (entries : list (string * value)).

(** [d[k]] and [k in d] on a dict kept as its items in insertion order. *)
Fixpoint dict_get (k : string) (entries : list (string * value))
  : option value :=
  match entries with
  | [] => None
  | (k', v) :: rest => if String.eqb k' k then Some v else dict_get k rest
  end.

Definition dict_has (k : string) (entries : list (string * value)) : bool :=
  match dict_get k entries with Some _ => true | None => false end.

(** [needle in haystack] for two [str]: a substring test. *)
Fixpoint str_contains (needle haystack : string) : bool :=
  String.prefix needle haystack
  || match haystack with
     | EmptyString => false
     | String _ rest => str_contains needle rest
     end.

Definition is_str (s : string) (v : value) : bool :=
  match v with VStr s' => String.eqb s' s | _ => false end.

(* ================================================================== *)
(** * Exceptions and outcomes *)

(** The exception classes the script distinguishes.  [RequestException]
    and [PyException] (any other class under [Exception]) derive from
    [Exception]; [KeyboardInterrupt] and [SystemExit] derive from
    [BaseException] only. *)
Inductive exn : Type :=
| RequestException (msg : string)
| PyException (class_name : string) (msg : string)
| KeyboardInterrupt
| SystemExit (code : Z).

Definition is_RequestException (e : exn) : bool :=
  match e with RequestException _ => true | _ => false end.

Definition is_Exception (e : exn) : bool :=
  match e with
  | RequestException _ | PyException _ _ => true
  | KeyboardInterrupt | SystemExit _ => false
  end.

Inductive outcome (A : Type) : Type :=
| Ret (a : A)
| Raise (e : exn).
Arguments Ret {A} a.
Arguments Raise {A} e.

(* ================================================================== *)
(** * The world the script runs in *)

Inductive level : Type := INFO | WARNING | ERROR.

(** The messages the script hands to its logger, by the line that logs
    them; each carries the values its f-string interpolates. *)
Inductive message : Type :=
| MsgSeed (seed : string)                               (* line 163 *)
| MsgUnexpectedFormat                                   (* line 111 *)
| MsgSuggestionsRequestError (err : string)             (* line 114 *)
| MsgSuggestionsUnexpected (err : string)               (* line 117 *)
| MsgResponseContent (text : option string)             (* line 118 *)
| MsgNoCount (keyword : value)                          (* line 152 *)
| MsgCountRequestError (keyword : value) (err : string) (* line 155 *)
| MsgCountUnexpected (keyword : value) (err : string)   (* line 158 *)
| MsgNoSuggestions                                      (* line 168 *)
| MsgCount (suggestion : value) (count : Z)             (* line 176 *)
| MsgNoResults                                          (* line 192 *)
| MsgTraceback (e : exn).                               (* line 214 *)

(** What the reporting step prints and writes, one constructor per
    format string. *)
Inductive written : Type :=
| Header (threshold : Z)                     (* lines 198 and 201 *)
| NicheLine (keyword : value) (count : Z)    (* line 204 *)
| NoNiches                                   (* line 208 *)
| Cancelled.                                 (* line 211 *)

(** What leaves the process towards the network and the clock. *)
Inductive event : Type :=
| Attempt (url : string) (timeout : Z)  (* one request put on the wire *)
| Backoff (seconds : Z)                 (* the retry policy's sleep *)
| Pause.                                (* [time.sleep] of line 174; its
                                           length is a float in [2, 7) *)

Record world : Type := mkWorld {
  clock : nat;                       (* interactions with the environment *)
  trace : list event;                (* oldest first *)
  oplog : list (level * message);    (* the logger's records *)
  stdout : list written;
  niche_file : list written          (* discovered_niches.log *)
}.

(** One answer of the network to one attempt. *)
Inductive reply : Type :=
| Response (status : Z) (text : string)
| ConnectionFailed (msg : string).

(** What the outside does at each tick of the clock. *)
Record environment : Type := mkEnv {
  server : nat -> string -> reply;  (* the answer to an attempt on a URL *)
  ctrl_c : nat -> bool;             (* the operator interrupts this step *)
  disk : nat -> option string       (* this file operation fails *)
}.

(** The library functions whose code is outside the script. *)
Record library : Type := mkLib {
  quote : string -> string;                  (* urllib.parse.quote *)
  quote_plus : string -> string;             (* urllib.parse.quote_plus *)
  json_loads : string -> option value;       (* None: not JSON *)
  html_parser : string -> option Soup.soup   (* None: the parser raised *)
}.

(** ** The monad *)

Definition M (A : Type) : Type := world -> outcome A * world.

Definition ret {A} (a : A) : M A := fun w => (Ret a, w).

Definition raise {A} (e : exn) : M A := fun w => (Raise e, w).

Definition bind {A B} (c : M A) (k : A -> M B) : M B :=
  fun w =>
    match c w with
    | (Ret a, w') => k a w'
    | (Raise e, w') => (Raise e, w')
    end.

Notation "x <- c ;; k" := (bind c (fun x => k))
  (at level 61, c at next level, right associativity).
Notation "c ;; k" := (bind c (fun _ => k))
  (at level 61, right associativity).

(** [try: body except ...]: [handler e] is [None] when no clause
    matches [e]. *)
Definition try_except {A} (body : M A) (handler : exn -> option (M A))
  : M A :=
  fun w =>
    match body w with
    | (Ret a, w') => (Ret a, w')
    | (Raise e, w') =>
        match handler e with
        | Some h => h w'
        | None => (Raise e, w')
        end
    end.

Definition lift {A} (o : outcome A) : M A := fun w => (o, w).

(** ** Primitive steps *)

Definition tick : M nat :=
  fun w => (Ret (clock w),
            mkWorld (S (clock w)) (trace w) (oplog w) (stdout w)
                    (niche_file w)).

Definition emit (e : event) : M unit :=
  fun w => (Ret tt,
            mkWorld (clock w) (trace w ++ [e]) (oplog w) (stdout w)
                    (niche_file w)).

Definition log (l : level) (m : message) : M unit :=
  fun w => (Ret tt,
            mkWorld (clock w) (trace w) (oplog w ++ [(l, m)]) (stdout w)
                    (niche_file w)).

Definition print (x : written) : M unit :=
  fun w => (Ret tt,
            mkWorld (clock w) (trace w) (oplog w) (stdout w ++ [x])
                    (niche_file w)).

(** A step during which the process waits on the outside: the operator's
    interrupt surfaces here as [KeyboardInterrupt]. *)
Definition blocking (env : environment) : M nat :=
  t <- tick ;;
  if ctrl_c env t then raise KeyboardInterrupt else ret t.

(** [open(path, 'a')] and [f.write]: the file only ever grows at its
    end. *)
Definition open_append (env : environment) : M unit :=
  t <- tick ;;
  match disk env t with
  | Some msg => raise (PyException "OSError" msg)
  | None => ret tt
  end.

Definition file_write (env : environment) (x : written) : M unit :=
  t <- tick ;;
  match disk env t with
  | Some msg => raise (PyException "OSError" msg)
  | None =>
      fun w => (Ret tt,
                mkWorld (clock w) (trace w) (oplog w) (stdout w)
                        (niche_file w ++ [x]))
  end.

(* ================================================================== *)
(** * The HTTP client (lines 43-54) *)

(** The arguments the script passes to [Retry]. *)
Record Retry : Type := mkRetry {
  total : Z;
  backoff_factor : Z;
  status_forcelist : list Z
}.

(** A session: the adapter mounted on "http://" and "https://" with its
    retry strategy, and the headers of the script. *)
Record Session : Type := mkSession {
  max_retries : Retry;
  headers : list (string * string)
}.

Definition create_session : Session :=
  let retry_strategy :=
    mkRetry MAX_RETRIES BACKOFF_FACTOR RETRY_STATUS_CODES in
  mkSession retry_strategy HEADERS.

Record response : Type := mkResponse {
  status_code : Z;
  text : string
}.

(** ** The retry loop of the adapter

    This is the behaviour of the retry library for a GET whose replies
    carry no redirect and no Retry-After header.  [total] is the number of
    retries allowed after the first attempt.  Before a retry the policy
    sleeps [backoff_factor * 2 ^ (n - 1)] seconds, capped at [BACKOFF_MAX],
    where [n] counts the consecutive failed attempts so far; after the
    first failure it does not sleep. *)
Definition BACKOFF_MAX : Z := 120.

Definition get_backoff_time (r : Retry) (consecutive_errors : nat) : Z :=
  if (consecutive_errors <=? 1)%nat then 0
  else Z.min BACKOFF_MAX
             (backoff_factor r * 2 ^ (Z.of_nat consecutive_errors - 1)).

Definition in_forcelist (status : Z) (r : Retry) : bool :=
  existsb (Z.eqb status) (status_forcelist r).

Definition backoff_sleep (env : environment) (r : Retry) (errors : nat)
  : M unit :=
  let seconds := get_backoff_time r errors in
  if seconds <=? 0 then ret tt
  else (_ <- blocking env ;; emit (Backoff seconds)).

Fixpoint urlopen (env : environment) (r : Retry) (retries_left : nat)
         (errors : nat) (url : string) (timeout : Z) : M response :=
  t <- blocking env ;;
  emit (Attempt url timeout) ;;
  match server env t url with
  | Response status body =>
      if in_forcelist status r then
        match retries_left with
        | O => raise (RequestException "RetryError")
        | S n =>
            backoff_sleep env r (S errors) ;;
            urlopen env r n (S errors) url timeout
        end
      else ret (mkResponse status body)
  | ConnectionFailed msg =>
      match retries_left with
      | O => raise (RequestException msg)
      | S n =>
          backoff_sleep env r (S errors) ;;
          urlopen env r n (S errors) url timeout
      end
  end.

(** [session.get(url, timeout=...)]. *)
Definition session_get (env : environment) (session : Session)
           (url : string) (timeout : Z) : M response :=
  urlopen env (max_retries session)
          (Z.to_nat (total (max_retries session))) 0 url timeout.

(** [response.raise_for_status()]: [HTTPError] is a [RequestException]. *)
Definition raise_for_status (resp : response) : M unit :=
  if (400 <=? status_code resp) && (status_code resp <? 600)
  then raise (RequestException "HTTPError")
  else ret tt.

(* ================================================================== *)
(** * Step 1: keyword suggestions (lines 71-119) *)

Inductive param : Type :=
| One (v : string)
| Many (vs : list string).

Definition params (seed : string) : list (string * param) :=
  [ ("limit", One "11");
    ("prefix", One seed);
    ("suggestion-type[]", Many ["WIDGET"; "KEYWORD"]);
    ("page-type", One "Detail");
    ("alias", One "stripbooks");
    ("site-variant", One "desktop");
    ("version", One "3");
    ("event", One "onkeypress");
    ("wc", One "");
    ("lop", One "en_US");
    ("last-prefix", One "");
    ("avg-ks-time", One "1989");
    ("fb", One "1");
    ("session-id", One "137-1927523-7967027");
    ("client-info", One "search-ui");
    ("mid", One "ATVPDKIKX0DER");
    ("plain-mid", One "1") ].

Definition param_parts (lib : library) (ps : list (string * param))
  : list string :=
  flat_map
    (fun kv =>
       match snd kv with
       | Many vs =>
           map (fun v => quote lib (fst kv) ++ "=" ++ quote lib v)%string vs
       | One v => [ (quote lib (fst kv) ++ "=" ++ quote lib v)%string ]
       end) ps.

Definition suggestion_url (lib : library) (seed : string) : string :=
  (SUGGESTION_URL ++ "?" ++ String.concat "&" (param_parts lib (params seed)))
  %string.

(** Iterating over a value, [k in item] and [item[k]], with the
    [TypeError] and [KeyError] of the values that do not support them. *)
Definition py_iter (v : value) : outcome (list value) :=
  match v with
  | VList items => Ret items
  | VDict entries => Ret (map (fun kv => VStr (fst kv)) entries)
  | VStr s => Ret (map (fun c => VStr (String c "")) (list_ascii_of_string s))
  | VNone | VBool _ | VNum _ =>
      Raise (PyException "TypeError" "object is not iterable")
  end.

Definition py_contains (k : string) (item : value) : outcome bool :=
  match item with
  | VDict entries => Ret (dict_has k entries)
  | VList items => Ret (existsb (is_str k) items)
  | VStr s => Ret (str_contains k s)
  | VNone | VBool _ | VNum _ =>
      Raise (PyException "TypeError" "argument is not iterable")
  end.

Definition py_getitem (item : value) (k : string) : outcome value :=
  match item with
  | VDict entries =>
      match dict_get k entries with
      | Some v => Ret v
      | None => Raise (PyException "KeyError" k)
      end
  | _ => Raise (PyException "TypeError" "indices must be integers")
  end.

(** [[item["value"] for item in items if "value" in item]] (line 110). *)
Fixpoint values_of (items : list value) : outcome (list value) :=
  match items with
  | [] => Ret []
  | item :: rest =>
      match py_contains "value" item with
      | Raise e => Raise e
      | Ret false => values_of rest
      | Ret true =>
          match py_getitem item "value" with
          | Raise e => Raise e
          | Ret v =>
              match values_of rest with
              | Raise e => Raise e
              | Ret vs => Ret (v :: vs)
              end
          end
      end
  end.

(** [response.json()]; its failure is a [RequestException] in the
    library (an older one raises [ValueError], which the second [except]
    clause turns into the same result). *)
Definition response_json (lib : library) (resp : response) : M value :=
  match json_loads lib (text resp) with
  | Some data => ret data
  | None => raise (RequestException "JSONDecodeError")
  end.

Definition exn_str (e : exn) : string :=
  match e with
  | RequestException msg => msg
  | PyException _ msg => msg
  | KeyboardInterrupt => ""
  | SystemExit _ => ""
  end.

(** The two [except] clauses of lines 113-119; [resp] is the response
    when the name is bound. *)
Definition suggestions_handler (resp : option response) (e : exn)
  : option (M (list value)) :=
  if is_RequestException e then
    Some (log ERROR (MsgSuggestionsRequestError (exn_str e)) ;; ret [])
  else if is_Exception e then
    Some (log ERROR (MsgSuggestionsUnexpected (exn_str e)) ;;
          log ERROR (MsgResponseContent (option_map text resp)) ;;
          ret [])
  else None.

(** Lines 105-112: from the response to the list of suggestions. *)
Definition read_suggestions (lib : library) (resp : response)
  : M (list value) :=
  raise_for_status resp ;;
  data <- response_json lib resp ;;
  match data with
  | VDict entries =>
      match dict_get "suggestions" entries with
      | Some suggestions =>
          items <- lift (py_iter suggestions) ;;
          lift (values_of items)
      | None => log WARNING MsgUnexpectedFormat ;; ret []
      end
  | _ => log WARNING MsgUnexpectedFormat ;; ret []
  end.

(** The handlers need to know whether the name [response] is bound, so
    the [try] is split at the call of [session.get]. *)
Definition get_suggestions (lib : library) (env : environment)
           (session : Session) (seed : string) : M (list value) :=
  let url := suggestion_url lib seed in
  fun w =>
    match session_get env session url REQUEST_TIMEOUT w with
    | (Raise e, w1) =>
        try_except (raise e) (suggestions_handler None) w1
    | (Ret resp, w1) =>
        try_except (read_suggestions lib resp)
                   (suggestions_handler (Some resp)) w1
    end.

(* ================================================================== *)
(** * Step 2: the result count of a search page (lines 122-159) *)

Definition selectors : list (string * list (string * string)) :=
  [ ("span", [("data-component-type", "s-result-info-bar")]);
    ("div", [("class", "sg-col-inner")]);
    ("div", [("class", "a-section a-spacing-small a-spacing-top-small")]) ].

(** The group of every pattern: a digit, then digits and commas. *)
Definition number_group : Text.regex :=
  Text.Grp (Text.Cat (Text.Cls Text.is_digit)
                     (Text.StarCls Text.is_digit_or_comma)).

Definition word (s : string) : Text.regex :=
  Text.Lit (list_ascii_of_string s) Text.Eps.

Definition patterns : list Text.regex :=
  [ (* the group, \s+, then results *)
    Text.Cat number_group (Text.Cat (Text.PlusCls Text.is_space)
                                    (word "results"));
    (* the group, \s+, then Results *)
    Text.Cat number_group (Text.Cat (Text.PlusCls Text.is_space)
                                    (word "Results"));
    (* over, \s+, then the group *)
    Text.Lit (list_ascii_of_string "over")
             (Text.Cat (Text.PlusCls Text.is_space) number_group);
    (* the group, \s+, then product *)
    Text.Cat number_group (Text.Cat (Text.PlusCls Text.is_space)
                                    (word "product")) ].

(** [int(match.group(1).replace(',', ''))] (line 150). *)
Definition count_of_match (m : option Text.chars) : outcome Z :=
  match m with
  | Some g =>
      match Text.py_int (Text.remove_commas g) with
      | Some z => Ret z
      | None => Raise (PyException "ValueError" "invalid literal for int()")
      end
  | None => Raise (PyException "AttributeError" "replace")
  end.

(** The inner loop (lines 147-150): [Some] is the [return] of the first
    pattern that matches, [None] is the loop running to its end. *)
Fixpoint try_patterns (ps : list Text.regex) (txt : string)
  : option (outcome Z) :=
  match ps with
  | [] => None
  | p :: ps' =>
      match Text.re_search p txt with
      | Some m => Some (count_of_match m)
      | None => try_patterns ps' txt
      end
  end.

(** The outer loop (lines 136-150): a selector whose element yields no
    number is followed by the next selector. *)
Fixpoint try_selectors (sels : list (string * list (string * string)))
         (page : Soup.soup) : option (outcome Z) :=
  match sels with
  | [] => None
  | (tag, attrs) :: sels' =>
      match Soup.find tag attrs page with
      | Some result_text =>
          match try_patterns patterns (Soup.get_text result_text) with
          | Some r => Some r
          | None => try_selectors sels' page
          end
      | None => try_selectors sels' page
      end
  end.

(** Lines 129-153 on a parsed page. *)
Definition extract_count (keyword : value) (page : Soup.soup) : M Z :=
  match try_selectors selectors page with
  | Some r => lift r
  | None => log WARNING (MsgNoCount keyword) ;; ret (-1)
  end.

(** [urllib.parse.quote_plus(keyword)]: a [TypeError] unless the keyword
    is a [str]. *)
Definition quote_keyword (lib : library) (keyword : value) : M string :=
  match keyword with
  | VStr s => ret (quote_plus lib s)
  | _ => raise (PyException "TypeError" "quote_from_bytes() expected bytes")
  end.

(** [BeautifulSoup(response.text, "html.parser")]. *)
Definition BeautifulSoup (lib : library) (markup : string) : M Soup.soup :=
  match html_parser lib markup with
  | Some page => ret page
  | None => raise (PyException "ParserRejectedMarkup" "")
  end.

(** The two [except] clauses of lines 154-159. *)
Definition count_handler (keyword : value) (e : exn) : option (M Z) :=
  if is_RequestException e then
    Some (log ERROR (MsgCountRequestError keyword (exn_str e)) ;; ret (-1))
  else if is_Exception e then
    Some (log ERROR (MsgCountUnexpected keyword (exn_str e)) ;; ret (-1))
  else None.

Definition get_result_count (lib : library) (env : environment)
           (session : Session) (keyword : value) : M Z :=
  try_except
    (q <- quote_keyword lib keyword ;;
     let search_url := (BASE_URL ++ "?k=" ++ q)%string in
     resp <- session_get env session search_url REQUEST_TIMEOUT ;;
     raise_for_status resp ;;
     page <- BeautifulSoup lib (text resp) ;;
     extract_count keyword page)
    (count_handler keyword).

(* ================================================================== *)
(** * Step 3: niche discovery (lines 162-178) *)

(** [time.sleep(MIN_DELAY + random.random() * (MAX_DELAY - MIN_DELAY))]. *)
Definition random_pause (env : environment) : M unit :=
  _ <- blocking env ;; emit Pause.

(** The [for] loop of lines 172-177, with the list it appends to. *)
Fixpoint collect_counts (lib : library) (env : environment)
         (session : Session) (suggestions : list value)
         (results : list (value * Z)) : M (list (value * Z)) :=
  match suggestions with
  | [] => ret results
  | suggestion :: rest =>
      random_pause env ;;
      count <- get_result_count lib env session suggestion ;;
      log INFO (MsgCount suggestion count) ;;
      collect_counts lib env session rest (results ++ [(suggestion, count)])
  end.

Definition discover_niches (lib : library) (env : environment)
           (seed : string) : M (list (value * Z)) :=
  log INFO (MsgSeed seed) ;;
  let session := create_session in
  suggestions <- get_suggestions lib env session seed ;;
  match suggestions with
  | [] => log ERROR MsgNoSuggestions ;; ret []
  | _ :: _ => collect_counts lib env session suggestions []
  end.

(* ================================================================== *)
(** * The reporting step and the exit status (lines 180-215) *)

Definition sample : Type := (value * Z)%type.

(** [0 < r[1] < args.threshold] (line 196). *)
Definition qualifies (threshold : Z) (r : sample) : bool :=
  (0 <? snd r) && (snd r <? threshold).

Definition low_competition (threshold : Z) (niche_results : list sample)
  : list sample :=
  filter (qualifies threshold) niche_results.

(** [sorted(low_comp, key=lambda x: x[1])]: a stable sort, so an element
    goes in front of the first one whose count is not smaller. *)
Fixpoint insert_by_count (x : sample) (l : list sample) : list sample :=
  match l with
  | [] => [x]
  | y :: l' =>
      if snd x <=? snd y then x :: l else y :: insert_by_count x l'
  end.

Definition sorted_by_count (l : list sample) : list sample :=
  fold_right insert_by_count [] l.

(** The samples that the report shows, in the order it shows them. *)
Definition reported (threshold : Z) (niche_results : list sample)
  : list sample :=
  sorted_by_count (low_competition threshold niche_results).

(** The loop of lines 203-206. *)
Fixpoint write_lines (env : environment) (l : list sample) : M unit :=
  match l with
  | [] => ret tt
  | (keyword, count) :: rest =>
      print (NicheLine keyword count) ;;
      file_write env (NicheLine keyword count) ;;
      write_lines env rest
  end.

(** Lines 196-208. *)
Definition report (env : environment) (threshold : Z)
           (niche_results : list sample) : M unit :=
  let low_comp := low_competition threshold niche_results in
  print (Header threshold) ;;
  open_append env ;;
  file_write env (Header threshold) ;;
  match low_comp with
  | _ :: _ => write_lines env (sorted_by_count low_comp)
  | [] => print NoNiches
  end.

(** The parsed command line. *)
Record arguments : Type := mkArgs {
  seed : string;
  threshold : Z
}.

(** The body of the [try] (lines 189-208); [exit(1)] raises
    [SystemExit]. *)
Definition main_body (lib : library) (env : environment) (args : arguments)
  : M unit :=
  niche_results <- discover_niches lib env (seed args) ;;
  match niche_results with
  | [] => log ERROR MsgNoResults ;; raise (SystemExit 1)
  | _ :: _ => report env (threshold args) niche_results
  end.

(** The script from the parsed arguments on: the exit status and the
    world it leaves.  Falling off the end is status 0; a [SystemExit]
    passes both [except] clauses and ends the process with its code. *)
Definition main (lib : library) (env : environment) (args : arguments)
           (w : world) : Z * world :=
  match main_body lib env args w with
  | (Ret _, w') => (0, w')
  | (Raise KeyboardInterrupt, w') => (0, snd (print Cancelled w'))
  | (Raise (SystemExit c), w') => (c, w')
  | (Raise e, w') => (1, snd (log ERROR (MsgTraceback e) w'))
  end.

(** Several runs of the script, one after the other, on the same files. *)
Fixpoint runs (lib : library) (l : list (environment * arguments))
         (w : world) : world :=
  match l with
  | [] => w
  | (env, args) :: rest => runs lib rest (snd (main lib env args w))
  end.

(* ================================================================== *)
(** * Vocabulary of the statements *)

(** The lines of the report for a list of samples (line 204). *)
Definition lines_of (l : list sample) : list written :=
  map (fun s => NicheLine (fst s) (snd s)) l.

Definition is_attempt (e : event) : bool :=
  match e with Attempt _ _ => true | _ => false end.

(** The number of requests put on the wire. *)
Definition attempts (tr : list event) : nat :=
  List.length (filter is_attempt tr).

(** A request for a search page, that is, for a result count. *)
Definition is_count_fetch (e : event) : bool :=
  match e with
  | Attempt url _ => String.prefix (BASE_URL ++ "?k=")%string url
  | _ => false
  end.

Definition count_fetches (tr : list event) : nat :=
  List.length (filter is_count_fetch tr).


(** The operator never interrupts; the disk never fails. *)
Definition no_interrupt (env : environment) : Prop :=
  forall t, ctrl_c env t = false.

Definition disk_ok (env : environment) : Prop :=
  forall t, disk env t = None.

(** A status that [raise_for_status] lets through. *)
Definition status_ok (resp : response) : bool :=
  negb ((400 <=? status_code resp) && (status_code resp <? 600)).

Definition is_dict (v : value) : bool :=
  match v with VDict _ => true | _ => false end.

Definition is_list (v : value) : bool :=
  match v with VList _ => true | _ => false end.

(** The "value" fields of the items that have one, in order: the
    specification's description of the result of [get_suggestions]. *)
Definition field_values (items : list value) : list value :=
  flat_map (fun item =>
              match item with
              | VDict entries =>
                  match dict_get "value" entries with
                  | Some v => [v]
                  | None => []
                  end
              | _ => []
              end) items.

(** What group 1 of each pattern holds: a digit, then digits and
    commas. *)
Definition number_shape (g : Text.chars) : Prop :=
  exists d tl, g = d :: tl /\ Text.is_digit d = true
               /\ Forall (fun c => Text.is_digit_or_comma c = true) tl.

(** What one round of the outer loop finds for a selector: the [return]
    of the inner loop on the text of the selector's first element, or
    [None] when there is no element or no pattern matches its text. *)
Definition selector_number (page : Soup.soup)
           (sel : string * list (string * string)) : option (outcome Z) :=
  match Soup.find (fst sel) (snd sel) page with
  | Some result_text => try_patterns patterns (Soup.get_text result_text)
  | None => None
  end.

(** Every exception that [c] can raise satisfies [P]. *)
Definition raises_only {A} (P : exn -> Prop) (c : M A) : Prop :=
  forall w e w', c w = (Raise e, w') -> P e.

(** Every value that [c] can return satisfies [Q]. *)
Definition returns_only {A} (Q : A -> Prop) (c : M A) : Prop :=
  forall w a w', c w = (Ret a, w') -> Q a.

(** The world after [c] is related to the world before by [R]. *)
Definition preserves (R : world -> world -> Prop) {A} (c : M A) : Prop :=
  forall w, R w (snd (c w)).

(** [e] is the operator's interrupt, and the operator did interrupt. *)
Definition interrupt_of (env : environment) (e : exn) : Prop :=
  e = KeyboardInterrupt /\ exists t, ctrl_c env t = true.

(** A regex without a capturing group. *)
Fixpoint group_free (r : Text.regex) : bool :=
  match r with
  | Text.Chr _ | Text.Cls _ | Text.StarCls _ => true
  | Text.Cat r1 r2 => group_free r1 && group_free r2
  | Text.Grp _ => false
  end.

(** A regex every match of which goes once through [number_group]. *)
Inductive captures_number : Text.regex -> Prop :=
| cn_last : captures_number number_group
| cn_first (tail : Text.regex) :
    group_free tail = true ->
    captures_number (Text.Cat number_group tail)
| cn_after (r1 r2 : Text.regex) :
    group_free r1 = true ->
    captures_number r2 ->
    captures_number (Text.Cat r1 r2).

(** Counts in non-decreasing order. *)
Definition non_decreasing (l : list sample) : Prop :=
  StronglySorted (fun a b => snd a <= snd b) l.

(** The world in which [discover_niches] calls [get_suggestions]. *)
Definition after_seed_log (seed : string) (w : world) : world :=
  snd (log INFO (MsgSeed seed) w).


(** The search URL of a keyword (line 124). *)
Definition search_url (lib : library) (keyword : string) : string :=
  (BASE_URL ++ "?k=" ++ quote_plus lib keyword)%string.

(* ================================================================== *)
(** * Concrete runs *)

Module Sample.

Definition world0 : world := mkWorld 0 [] [] [] [].

(** A page whose first selector finds an element without a number and
    whose second selector finds one with a number:

      <span data-component-type="s-result-info-bar">Sponsored</span>
      <div class="sg-col-inner">1-16 of 12 results for</div> *)
Definition page_two_bars : Soup.soup :=
  [ Soup.NTag "span"
      [("data-component-type", Soup.Single "s-result-info-bar")]
      [Soup.NText "Sponsored"];
    Soup.NTag "div" [("class", Soup.Multi ["sg-col-inner"])]
      [Soup.NText "1-16 of 12 results for"] ].

(** A page with the count in the first selector's element:

      <span data-component-type="s-result-info-bar">
        <h1>1-48 of over 50,000 results for</h1></span> *)
Definition page_info_bar : Soup.soup :=
  [ Soup.NTag "span"
      [("data-component-type", Soup.Single "s-result-info-bar")]
      [Soup.NTag "h1" [] [Soup.NText "1-48 of over 50,000 results for"]] ].

(** A suggestions response of three items, the second without "value". *)
Definition items : list value :=
  [ VDict [("value", VStr "coloring book for adults")];
    VDict [("type", VStr "KEYWORD")];
    VDict [("value", VStr "coloring book for kids")] ].

Definition data : value := VDict [("suggestions", VList items)].

(** Library functions for the runs below: quoting leaves the text as it
    is, every body parses to [data] and to [page]. *)
Definition lib_with (page : Soup.soup) : library :=
  mkLib (fun s => s) (fun s => s) (fun _ => Some data) (fun _ => Some page).

Definition lib : library := lib_with page_two_bars.

(** The server answers every attempt with [status]; nobody interrupts
    and the disk works. *)
Definition env_status (status : Z) : environment :=
  mkEnv (fun _ _ => Response status "body") (fun _ => false) (fun _ => None).

Definition env_ok : environment := env_status 200.


(** The operator presses Ctrl-C during the first blocking step. *)
Definition env_interrupted : environment :=
  mkEnv (fun _ _ => Response 200 "body") (fun t => Nat.eqb t 0)
        (fun _ => None).

Definition args : arguments := mkArgs "coloring book for" 2000.

Definition samples : list sample :=
  [ (VStr "coloring book for adults", 1234);
    (VStr "coloring book for kids", 50000);
    (VStr "coloring book for cats", -1);
    (VStr "coloring book for dogs", 0);
    (VStr "coloring book for teens", 310) ].

End Sample.

(* ================================================================== *)
(** * Vocabulary of the further properties *)

(** The samples of a list that have the count [c], in the list's order. *)
Definition with_count (c : Z) (l : list sample) : list sample :=
  filter (fun s => snd s =? c) l.




(** A record of line 176. *)
Definition is_count_record (r : level * message) : bool :=
  match snd r with MsgCount _ _ => true | _ => false end.

(** The samples that the records of line 176 show, oldest first. *)
Definition logged_counts (records : list (level * message)) : list sample :=
  flat_map (fun r =>
              match snd r with
              | MsgCount suggestion count => [(suggestion, count)]
              | _ => []
              end) records.

(** A record with which [get_result_count] says that it has no count for
    [keyword] (lines 152, 155 and 158). *)
Definition no_count_record (keyword : value) (r : level * message) : Prop :=
  r = (WARNING, MsgNoCount keyword)
  \/ (exists err, r = (ERROR, MsgCountRequestError keyword err))
  \/ (exists err, r = (ERROR, MsgCountUnexpected keyword err)).

(** A record of [get_suggestions] (lines 111, 114, 117 and 118). *)
Definition suggestions_record (r : level * message) : Prop :=
  match r with
  | (WARNING, MsgUnexpectedFormat) => True
  | (ERROR, MsgSuggestionsRequestError _) => True
  | (ERROR, MsgSuggestionsUnexpected _) => True
  | (ERROR, MsgResponseContent _) => True
  | _ => False
  end.

(** An event of a call that talks to [url] only: a request to [url] with
    the timeout [timeout], or a sleep of the retry policy. *)
Definition request_to (url : string) (timeout : Z) (e : event) : Prop :=
  match e with
  | Attempt url' t => url' = url /\ t = timeout
  | Backoff _ => True
  | Pause => False
  end.

(** The events of one round of the loop of lines 172-177: the pause, then
    at most [limit] requests, all for the search page of the suggestion;
    a suggestion that is not a [str] has no request. *)
Definition round_of (lib : library) (limit : nat) (suggestion : value)
           (evs : list event) : Prop :=
  exists reqs,
    evs = Pause :: reqs
    /\ (attempts reqs <= limit)%nat
    /\ match suggestion with
       | VStr s => Forall (request_to (search_url lib s) REQUEST_TIMEOUT) reqs
       | _ => reqs = []
       end.

(** The number that a string of decimal digits denotes. *)
Definition decimal_value (ds : Text.chars) : Z :=
  fold_left (fun acc c => 10 * acc + Text.digit_value c) ds 0.

(** [w'] is [w] after a call of [session.get] for [url]: at most
    [limit] requests, all to [url] with the timeout [timeout], and the
    sleeps between them; nothing is logged, printed or written. *)
Definition after_requests (url : string) (timeout : Z) (limit : nat)
           (w w' : world) : Prop :=
  exists new,
    trace w' = trace w ++ new
    /\ Forall (request_to url timeout) new
    /\ (attempts new <= limit)%nat
    /\ oplog w' = oplog w
    /\ stdout w' = stdout w
    /\ niche_file w' = niche_file w.

(** [w'] is [w] with the records [recs] added to the log, and nothing
    else changed. *)
Definition logs (recs : list (level * message)) (w w' : world) : Prop :=
  clock w' = clock w
  /\ trace w' = trace w
  /\ oplog w' = oplog w ++ recs
  /\ stdout w' = stdout w
  /\ niche_file w' = niche_file w.

(** A disk on which no file operation succeeds. *)
Module Faults.

Definition env_read_only : environment :=
  mkEnv (fun _ _ => Response 200 "body") (fun _ => false)
        (fun _ => Some "Permission denied").

End Faults.

(** Every character of [s] satisfies [p]. *)
Definition all_chars (p : ascii -> bool) (s : string) : bool :=
  forallb p (list_ascii_of_string s).

(** A digit followed by digits and commas: the text of group 1. *)
Definition is_number (g : Text.chars) : bool :=
  match g with
  | d :: tl => Text.is_digit d && forallb Text.is_digit_or_comma tl
  | [] => false
  end.


(** [g] is a piece of [s]: consecutive characters of it. *)
Definition occurs_in (g s : Text.chars) : Prop :=
  exists before after, s = before ++ g ++ after.

(* ================================================================== *)
(** * The reporting filter and its order *)

Lemma qualifies_iff (threshold : Z) (s : sample) :
  qualifies threshold s = true <-> 0 < snd s < threshold.
Proof.
  unfold qualifies.
  rewrite andb_true_iff, !Z.ltb_lt.
  tauto.
Qed.

Lemma insert_by_count_In (x s : sample) (l : list sample) :
  In s (insert_by_count x l) <-> s = x \/ In s l.
Proof.
  induction l as [|y l IH]; simpl.
  - intuition.
  - destruct (snd x <=? snd y); simpl.
    + intuition.
    + rewrite IH. intuition.
Qed.

Lemma sorted_by_count_In (s : sample) (l : list sample) :
  In s (sorted_by_count l) <-> In s l.
Proof.
  induction l as [|x l IH]; simpl.
  - tauto.
  - rewrite insert_by_count_In, IH. intuition.
Qed.

Lemma insert_by_count_sorted (x : sample) (l : list sample) :
  non_decreasing l -> non_decreasing (insert_by_count x l).
Proof.
  unfold non_decreasing.
  induction l as [|y l IH]; intros Hs; simpl.
  - constructor; [constructor | constructor].
  - destruct (snd x <=? snd y) eqn:Hxy.
    + apply Z.leb_le in Hxy.
      constructor; [assumption|].
      inversion Hs as [|? ? Hl Hy]; subst.
      constructor; [assumption|].
      rewrite Forall_forall in *. intros z Hz.
      specialize (Hy z Hz). lia.
    + apply Z.leb_gt in Hxy.
      inversion Hs as [|? ? Hl Hy]; subst.
      constructor; [apply IH; assumption|].
      rewrite Forall_forall in *. intros z Hz.
      apply insert_by_count_In in Hz.
      destruct Hz as [->|Hz]; [lia | apply Hy; assumption].
Qed.

Lemma sorted_by_count_sorted (l : list sample) :
  non_decreasing (sorted_by_count l).
Proof.
  induction l as [|x l IH]; simpl.
  - constructor.
  - apply insert_by_count_sorted, IH.
Qed.

Lemma insert_by_count_perm (x : sample) (l : list sample) :
  Permutation (x :: l) (insert_by_count x l).
Proof.
  induction l as [|y l IH]; simpl.
  - apply Permutation_refl.
  - destruct (snd x <=? snd y).
    + apply Permutation_refl.
    + eapply Permutation_trans; [apply perm_swap|].
      apply perm_skip, IH.
Qed.

Lemma sorted_by_count_perm (l : list sample) :
  Permutation l (sorted_by_count l).
Proof.
  induction l as [|x l IH]; simpl.
  - apply Permutation_refl.
  - eapply Permutation_trans; [apply perm_skip, IH|].
    apply insert_by_count_perm.
Qed.

(** A stable sort keeps samples of equal count in their order: sorting a
    list that is already in order changes nothing. *)
Lemma sorted_by_count_fixed (l : list sample) :
  non_decreasing l -> sorted_by_count l = l.
Proof.
  unfold non_decreasing.
  induction l as [|x l IH]; intros Hs; simpl; [reflexivity|].
  inversion Hs as [|? ? Hl Hx]; subst.
  rewrite (IH Hl).
  destruct l as [|y l']; simpl; [reflexivity|].
  inversion Hx as [|? ? Hxy _]; subst.
  apply Z.leb_le in Hxy. rewrite Hxy. reflexivity.
Qed.

(* ================================================================== *)
(** * Reasoning about runs *)

(** ** What a computation may raise *)

Lemma raises_only_weaken {A} (P Q : exn -> Prop) (c : M A) :
  (forall e, P e -> Q e) -> raises_only P c -> raises_only Q c.
Proof. intros HPQ Hc w e w' H. apply HPQ. eapply Hc; eassumption. Qed.

Lemma raises_only_ret {A} (P : exn -> Prop) (a : A) : raises_only P (ret a).
Proof. intros w e w' H. discriminate H. Qed.

Lemma raises_only_raise {A} (P : exn -> Prop) (e : exn) :
  P e -> raises_only P (@raise A e).
Proof. intros He w e' w' H. inversion H; subst. exact He. Qed.

Lemma raises_only_bind {A B} (P : exn -> Prop) (c : M A) (k : A -> M B) :
  raises_only P c -> (forall a, raises_only P (k a)) ->
  raises_only P (bind c k).
Proof.
  intros Hc Hk w e w' H. unfold bind in H.
  destruct (c w) as [[a|e0] w1] eqn:Hcw.
  - eapply Hk; eassumption.
  - inversion H; subst. eapply Hc; eassumption.
Qed.

Lemma raises_only_lift {A} (P : exn -> Prop) (o : outcome A) :
  (forall e, o = Raise e -> P e) -> raises_only P (lift o).
Proof. intros Ho w e w' H. inversion H; subst. apply Ho. reflexivity. Qed.

Lemma raises_only_try_except {A} (P Q : exn -> Prop) (body : M A)
      (handler : exn -> option (M A)) :
  raises_only P body ->
  (forall e h, P e -> handler e = Some h -> raises_only Q h) ->
  (forall e, P e -> handler e = None -> Q e) ->
  raises_only Q (try_except body handler).
Proof.
  intros Hb Hh Hn w e w' H. unfold try_except in H.
  destruct (body w) as [[a|e0] w1] eqn:Hbw; [discriminate H|].
  pose proof (Hb _ _ _ Hbw) as HP.
  destruct (handler e0) as [h|] eqn:Hhe.
  - eapply Hh; eassumption.
  - inversion H; subst. apply Hn; assumption.
Qed.

Lemma raises_only_tick (P : exn -> Prop) : raises_only P tick.
Proof. intros w e w' H. discriminate H. Qed.

Lemma raises_only_emit (P : exn -> Prop) (ev : event) :
  raises_only P (emit ev).
Proof. intros w e w' H. discriminate H. Qed.

Lemma raises_only_log (P : exn -> Prop) (l : level) (m : message) :
  raises_only P (log l m).
Proof. intros w e w' H. discriminate H. Qed.

Lemma raises_only_print (P : exn -> Prop) (x : written) :
  raises_only P (print x).
Proof. intros w e w' H. discriminate H. Qed.

(** ** Relations between the world before and after

    [R] is any relation that every primitive step respects; then every
    function of the script respects it. *)
Section Preservation.
Variable R : world -> world -> Prop.
Variable ok_event : event -> Prop.
Hypothesis R_refl : forall w, R w w.
Hypothesis R_trans : forall w1 w2 w3, R w1 w2 -> R w2 w3 -> R w1 w3.
Hypothesis R_tick : forall w, R w (snd (tick w)).
Hypothesis R_emit : forall e w, ok_event e -> R w (snd (emit e w)).
Hypothesis R_log : forall l m w, R w (snd (log l m w)).
Hypothesis R_print : forall x w, R w (snd (print x w)).
Hypothesis R_write :
  forall x w, R w (mkWorld (clock w) (trace w) (oplog w) (stdout w)
                           (niche_file w ++ [x])).
Hypothesis ok_attempt : forall url, ok_event (Attempt url REQUEST_TIMEOUT).
Hypothesis ok_backoff : forall s, ok_event (Backoff s).
Hypothesis ok_pause : ok_event Pause.

Lemma preserves_ret {A} (a : A) : preserves R (ret a).
Proof. intros w. apply R_refl. Qed.

Lemma preserves_raise {A} (e : exn) : preserves R (@raise A e).
Proof. intros w. apply R_refl. Qed.

Lemma preserves_lift {A} (o : outcome A) : preserves R (lift o).
Proof. intros w. apply R_refl. Qed.

Lemma preserves_bind {A B} (c : M A) (k : A -> M B) :
  preserves R c -> (forall a, preserves R (k a)) -> preserves R (bind c k).
Proof.
  intros Hc Hk w. unfold bind.
  specialize (Hc w).
  destruct (c w) as [[a|e] w1]; simpl in *.
  - eapply R_trans; [exact Hc | apply Hk].
  - exact Hc.
Qed.

Lemma preserves_try_except {A} (body : M A)
      (handler : exn -> option (M A)) :
  preserves R body ->
  (forall e h, handler e = Some h -> preserves R h) ->
  preserves R (try_except body handler).
Proof.
  intros Hb Hh w. unfold try_except.
  specialize (Hb w).
  destruct (body w) as [[a|e] w1]; simpl in *; [exact Hb|].
  destruct (handler e) as [h|] eqn:He; simpl; [|exact Hb].
  eapply R_trans; [exact Hb | eapply Hh; exact He].
Qed.

Lemma preserves_blocking (env : environment) : preserves R (blocking env).
Proof.
  unfold blocking. apply preserves_bind; [exact R_tick|].
  intros t. destruct (ctrl_c env t);
    [apply preserves_raise | apply preserves_ret].
Qed.

Lemma preserves_open_append (env : environment) :
  preserves R (open_append env).
Proof.
  unfold open_append. apply preserves_bind; [exact R_tick|].
  intros t. destruct (disk env t);
    [apply preserves_raise | apply preserves_ret].
Qed.

Lemma preserves_file_write (env : environment) (x : written) :
  preserves R (file_write env x).
Proof.
  unfold file_write. apply preserves_bind; [exact R_tick|].
  intros t. destruct (disk env t); [apply preserves_raise|].
  intros w. apply R_write.
Qed.

Lemma preserves_backoff_sleep (env : environment) (r : Retry) (n : nat) :
  preserves R (backoff_sleep env r n).
Proof.
  unfold backoff_sleep.
  destruct (get_backoff_time r n <=? 0); [apply preserves_ret|].
  apply preserves_bind; [apply preserves_blocking|].
  intros _ w. apply R_emit, ok_backoff.
Qed.

Lemma preserves_urlopen (env : environment) (r : Retry) (url : string)
      (retries_left errors : nat) :
  preserves R (urlopen env r retries_left errors url REQUEST_TIMEOUT).
Proof.
  revert errors.
  induction retries_left as [|n IH]; intros errors; simpl;
    (apply preserves_bind; [apply preserves_blocking|]; intros t;
     apply preserves_bind;
     [intros w; apply R_emit, ok_attempt|]; intros _;
     destruct (server env t url) as [status body|msg]).
  - destruct (in_forcelist status r);
      [apply preserves_raise | apply preserves_ret].
  - apply preserves_raise.
  - destruct (in_forcelist status r); [|apply preserves_ret].
    apply preserves_bind; [apply preserves_backoff_sleep|].
    intros _. apply IH.
  - apply preserves_bind; [apply preserves_backoff_sleep|].
    intros _. apply IH.
Qed.

Lemma preserves_session_get (env : environment) (session : Session)
      (url : string) :
  preserves R (session_get env session url REQUEST_TIMEOUT).
Proof. apply preserves_urlopen. Qed.
Lemma preserves_raise_for_status (resp : response) :
  preserves R (raise_for_status resp).
Proof.
  unfold raise_for_status.
  destruct ((400 <=? status_code resp) && (status_code resp <? 600));
    [apply preserves_raise | apply preserves_ret].
Qed.

Lemma preserves_log (l : level) (m : message) : preserves R (log l m).
Proof. intros w. apply R_log. Qed.

Lemma preserves_print (x : written) : preserves R (print x).
Proof. intros w. apply R_print. Qed.

Lemma preserves_suggestions_handler (resp : option response) (e : exn)
      (h : M (list value)) :
  suggestions_handler resp e = Some h -> preserves R h.
Proof.
  unfold suggestions_handler. intros H.
  destruct (is_RequestException e).
  - inversion H; subst.
    apply preserves_bind; [apply preserves_log|].
    intros _. apply preserves_ret.
  - destruct (is_Exception e); [|discriminate H].
    inversion H; subst.
    apply preserves_bind; [apply preserves_log|]. intros _.
    apply preserves_bind; [apply preserves_log|]. intros _.
    apply preserves_ret.
Qed.

Lemma preserves_read_suggestions (lib : library) (resp : response) :
  preserves R (read_suggestions lib resp).
Proof.
  unfold read_suggestions.
  apply preserves_bind; [apply preserves_raise_for_status|]. intros _.
  apply preserves_bind.
  { unfold response_json. destruct (json_loads lib (text resp));
      [apply preserves_ret | apply preserves_raise]. }
  intros data.
  assert (Hwarn : preserves R (log WARNING MsgUnexpectedFormat ;;
                               @ret (list value) [])).
  { apply preserves_bind; [apply preserves_log|].
    intros _. apply preserves_ret. }
  destruct data; try exact Hwarn.
  destruct (dict_get "suggestions" entries); [|exact Hwarn].
  apply preserves_bind; [apply preserves_lift|].
  intros items. apply preserves_lift.
Qed.

Lemma preserves_get_suggestions (lib : library) (env : environment)
      (session : Session) (seed : string) :
  preserves R (get_suggestions lib env session seed).
Proof.
  intros w. unfold get_suggestions.
  pose proof (preserves_session_get env session
                (suggestion_url lib seed) w) as Hget.
  destruct (session_get env session (suggestion_url lib seed)
                        REQUEST_TIMEOUT w) as [[resp|e] w1];
    simpl in Hget; (eapply R_trans; [exact Hget|]).
  - apply preserves_try_except;
      [apply preserves_read_suggestions
      |intros e h; apply preserves_suggestions_handler].
  - apply preserves_try_except;
      [apply preserves_raise
      |intros e0 h; apply preserves_suggestions_handler].
Qed.

Lemma preserves_get_result_count (lib : library) (env : environment)
      (session : Session) (keyword : value) :
  preserves R (get_result_count lib env session keyword).
Proof.
  unfold get_result_count. apply preserves_try_except.
  - apply preserves_bind.
    { unfold quote_keyword.
      destruct keyword; try apply preserves_raise. apply preserves_ret. }
    intros q.
    apply preserves_bind; [apply preserves_session_get|]. intros resp.
    apply preserves_bind; [apply preserves_raise_for_status|]. intros _.
    apply preserves_bind.
    { unfold BeautifulSoup. destruct (html_parser lib (text resp));
        [apply preserves_ret | apply preserves_raise]. }
    intros page. unfold extract_count.
    destruct (try_selectors selectors page); [apply preserves_lift|].
    apply preserves_bind; [apply preserves_log|].
    intros _. apply preserves_ret.
  - intros e h. unfold count_handler.
    destruct (is_RequestException e).
    + intros H; inversion H; subst.
      apply preserves_bind; [apply preserves_log|].
      intros _. apply preserves_ret.
    + destruct (is_Exception e); [|discriminate].
      intros H; inversion H; subst.
      apply preserves_bind; [apply preserves_log|].
      intros _. apply preserves_ret.
Qed.

Lemma preserves_collect_counts (lib : library) (env : environment)
      (session : Session) (suggestions : list value) :
  forall results,
    preserves R (collect_counts lib env session suggestions results).
Proof.
  induction suggestions as [|s rest IH]; intros results; simpl.
  - apply preserves_ret.
  - apply preserves_bind.
    { unfold random_pause.
      apply preserves_bind; [apply preserves_blocking|].
      intros _ w. apply R_emit, ok_pause. }
    intros _.
    apply preserves_bind; [apply preserves_get_result_count|].
    intros count.
    apply preserves_bind; [apply preserves_log|].
    intros _. apply IH.
Qed.

Lemma preserves_discover_niches (lib : library) (env : environment)
      (seed : string) :
  preserves R (discover_niches lib env seed).
Proof.
  unfold discover_niches.
  apply preserves_bind; [apply preserves_log|]. intros _.
  apply preserves_bind; [apply preserves_get_suggestions|].
  intros suggestions. destruct suggestions as [|s rest].
  - apply preserves_bind; [apply preserves_log|].
    intros _. apply preserves_ret.
  - apply preserves_collect_counts.
Qed.

Lemma preserves_write_lines (env : environment) (l : list sample) :
  preserves R (write_lines env l).
Proof.
  induction l as [|[keyword count] rest IH]; simpl.
  - apply preserves_ret.
  - apply preserves_bind; [apply preserves_print|]. intros _.
    apply preserves_bind; [apply preserves_file_write|]. intros _.
    exact IH.
Qed.

Lemma preserves_report (env : environment) (limit : Z)
      (niche_results : list sample) :
  preserves R (report env limit niche_results).
Proof.
  unfold report.
  apply preserves_bind; [apply preserves_print|]. intros _.
  apply preserves_bind; [apply preserves_open_append|]. intros _.
  apply preserves_bind; [apply preserves_file_write|]. intros _.
  destruct (low_competition limit niche_results);
    [apply preserves_print | apply preserves_write_lines].
Qed.

Lemma preserves_main_body (lib : library) (env : environment)
      (args : arguments) :
  preserves R (main_body lib env args).
Proof.
  unfold main_body.
  apply preserves_bind; [apply preserves_discover_niches|].
  intros niche_results. destruct niche_results as [|r rest].
  - apply preserves_bind; [apply preserves_log|].
    intros _. apply preserves_raise.
  - apply preserves_report.
Qed.

Lemma preserves_main (lib : library) (env : environment)
      (args : arguments) (w : world) :
  R w (snd (main lib env args w)).
Proof.
  unfold main.
  pose proof (preserves_main_body lib env args w) as Hb.
  destruct (main_body lib env args w) as [[u|e] w1]; simpl in Hb;
    [exact Hb|].
  destruct e; simpl;
    try exact Hb;
    (eapply R_trans; [exact Hb|]);
    first [apply R_log | apply R_print].
Qed.

Lemma preserves_runs (lib : library)
      (l : list (environment * arguments)) :
  forall w, R w (runs lib l w).
Proof.
  induction l as [|[env args] rest IH]; intros w; simpl.
  - apply R_refl.
  - eapply R_trans; [apply preserves_main | apply IH].
Qed.
End Preservation.

(* ================================================================== *)
(** * What the reporting step writes *)

Lemma lines_of_app (l1 l2 : list sample) :
  lines_of (l1 ++ l2) = lines_of l1 ++ lines_of l2.
Proof. unfold lines_of. apply map_app. Qed.

(** With a working disk the loop prints and writes every line. *)
Lemma write_lines_disk_ok (env : environment) (l : list sample) :
  disk_ok env ->
  forall w, exists w',
    write_lines env l w = (Ret tt, w')
    /\ stdout w' = stdout w ++ lines_of l
    /\ niche_file w' = niche_file w ++ lines_of l.
Proof.
  intros Hdisk.
  induction l as [|[keyword count] rest IH]; intros w; simpl.
  - exists w. rewrite !app_nil_r. auto.
  - unfold file_write, print, bind, tick. simpl.
    rewrite Hdisk.
    match goal with
    | |- context [write_lines env rest ?w1] =>
        destruct (IH w1) as (w' & H1 & H2 & H3)
    end.
    exists w'. simpl in H2, H3.
    rewrite H1, H2, H3, <- !app_assoc. auto.
Qed.

(** Whatever the disk does, the loop adds an initial part of its lines
    to the end of the file. *)
Lemma write_lines_appends (env : environment) (l : list sample) :
  forall w, exists k,
    niche_file (snd (write_lines env l w))
    = niche_file w ++ firstn k (lines_of l).
Proof.
  induction l as [|[keyword count] rest IH]; intros w; simpl.
  - exists 0%nat. simpl. rewrite app_nil_r. reflexivity.
  - unfold file_write, print, bind, tick. simpl.
    destruct (disk env (clock w)) as [msg|]; simpl.
    + exists 0%nat. simpl. rewrite app_nil_r. reflexivity.
    + match goal with
      | |- context [write_lines env rest ?w1] =>
          destruct (IH w1) as [k Hk]
      end.
      exists (S k). rewrite Hk. simpl.
      rewrite <- app_assoc. reflexivity.
Qed.

Lemma sorted_by_count_nil (l : list sample) :
  sorted_by_count l = [] -> l = [].
Proof.
  intros H. apply Permutation_nil.
  rewrite <- H. apply Permutation_sym, sorted_by_count_perm.
Qed.

Lemma report_disk_ok (env : environment) (limit : Z)
      (niche_results : list sample) (w : world) :
  disk_ok env ->
  exists w',
    report env limit niche_results w = (Ret tt, w')
    /\ stdout w'
       = stdout w ++ Header limit ::
           match reported limit niche_results with
           | [] => [NoNiches]
           | shown => lines_of shown
           end
    /\ niche_file w'
       = niche_file w ++ Header limit ::
           lines_of (reported limit niche_results).
Proof.
  intros Hdisk. unfold report, reported.
  unfold open_append, file_write, print, bind, tick. simpl.
  repeat (rewrite Hdisk; simpl).
  destruct (low_competition limit niche_results) as [|x l] eqn:Hlow.
  - simpl. eexists. split; [reflexivity|]. simpl.
    rewrite <- !app_assoc. auto.
  - assert (Hne : sorted_by_count (x :: l) <> []).
    { intros Hs. apply sorted_by_count_nil in Hs. discriminate Hs. }
    remember (sorted_by_count (x :: l)) as shown eqn:Hshown.
    match goal with
    | |- context [write_lines env shown ?w1] =>
        destruct (write_lines_disk_ok env shown Hdisk w1)
          as (w' & H1 & H2 & H3)
    end.
    exists w'. cbn [stdout niche_file] in H2, H3.
    rewrite H1, H2, H3, <- !app_assoc.
    destruct shown as [|y shown]; [contradiction Hne; reflexivity|].
    auto.
Qed.

Lemma report_appends (env : environment) (limit : Z)
      (niche_results : list sample) (w : world) :
  exists k,
    niche_file (snd (report env limit niche_results w))
    = niche_file w
      ++ firstn k (Header limit :: lines_of (reported limit niche_results)).
Proof.
  unfold report, reported.
  unfold open_append, file_write, print, bind, tick. simpl.
  destruct (disk env (clock w)) as [msg|]; simpl.
  { exists 0%nat. simpl. rewrite app_nil_r. reflexivity. }
  destruct (disk env (S (clock w))) as [msg|]; simpl.
  { exists 0%nat. simpl. rewrite app_nil_r. reflexivity. }
  destruct (low_competition limit niche_results) as [|x l] eqn:Hlow.
  - exists 1%nat. simpl. reflexivity.
  - match goal with
    | |- context [write_lines env ?shown ?w1] =>
        destruct (write_lines_appends env shown w1) as [k Hk]
    end.
    exists (S k). rewrite Hk. simpl.
    rewrite <- app_assoc. reflexivity.
Qed.

(** C1. For every sample list and every threshold, a sample is in the
    report exactly when it is one of the samples and its count is above 0
    and below the threshold; the report is in non-decreasing order of
    count and holds each qualifying sample as often as the input does; no
    reported sample has count -1 or 0; with threshold 0 the report is
    empty; and when the disk works the reporting step prints, after its
    header, exactly the lines of these samples in this order (or the
    no-niches message when there is none). *)
Theorem report_filter_sorted :
  forall (niche_results : list sample) (limit : Z),
    (forall s, In s (reported limit niche_results)
               <-> In s niche_results /\ 0 < snd s < limit)
    /\ non_decreasing (reported limit niche_results)
    /\ Permutation (low_competition limit niche_results)
                   (reported limit niche_results)
    /\ (forall s, In s (reported limit niche_results)
                  -> snd s <> -1 /\ snd s <> 0)
    /\ reported 0 niche_results = []
    /\ (forall env w,
          disk_ok env ->
          stdout (snd (report env limit niche_results w))
          = stdout w ++ Header limit ::
              match reported limit niche_results with
              | [] => [NoNiches]
              | shown => lines_of shown
              end).
Proof.
  intros niche_results limit.
  assert (Hin : forall s, In s (reported limit niche_results)
                          <-> In s niche_results /\ 0 < snd s < limit).
  { intros s. unfold reported, low_competition.
    rewrite sorted_by_count_In, filter_In, qualifies_iff. tauto. }
  split; [exact Hin|].
  split; [apply sorted_by_count_sorted|].
  split; [apply sorted_by_count_perm|].
  split; [intros s Hs; apply Hin in Hs; lia|].
  split.
  2:{ intros env w Hdisk.
      destruct (report_disk_ok env limit niche_results w Hdisk)
        as (w' & Hrun & Hout & _).
      rewrite Hrun. exact Hout. }
  unfold reported, low_competition.
  replace (filter (qualifies 0) niche_results) with (@nil sample);
    [reflexivity|].
  symmetry. clear Hin.
  induction niche_results as [|x l IH]; simpl; [reflexivity|].
  replace (qualifies 0 x) with false; [exact IH|].
  symmetry. unfold qualifies.
  destruct (0 <? snd x) eqn:H1; simpl; [|reflexivity].
  apply Z.ltb_lt in H1. apply Z.ltb_ge. lia.
Qed.

Lemma report_filter_sorted_witness :
  disk_ok Sample.env_ok
  /\ stdout (snd (report Sample.env_ok 2000 Sample.samples Sample.world0))
     = [ Header 2000;
         NicheLine (VStr "coloring book for teens") 310;
         NicheLine (VStr "coloring book for adults") 1234 ].
Proof.
  split; [intros t; reflexivity|].
  destruct (report_filter_sorted Sample.samples 2000)
    as (_ & _ & _ & _ & _ & Hprint).
  rewrite (Hprint Sample.env_ok Sample.world0); [reflexivity|].
  intros t; reflexivity.
Defined.

(* ================================================================== *)
(** * The niche log only grows *)

(** Nothing before the reporting step touches the file. *)
Lemma discover_niches_keeps_file (lib : library) (env : environment)
      (seed : string) (w : world) :
  niche_file (snd (discover_niches lib env seed w)) = niche_file w.
Proof.
  apply (preserves_discover_niches
           (fun w1 w2 => niche_file w2 = niche_file w1) (fun _ => True));
    try (intros; reflexivity); auto.
  intros w1 w2 w3 H12 H23. rewrite H23. exact H12.
Qed.

Lemma main_file_is_body_file (lib : library) (env : environment)
      (args : arguments) (w : world) :
  niche_file (snd (main lib env args w))
  = niche_file (snd (main_body lib env args w)).
Proof.
  unfold main.
  destruct (main_body lib env args w) as [[u|e] w1]; [reflexivity|].
  destruct e; reflexivity.
Qed.

Lemma main_appends (lib : library) (env : environment) (args : arguments)
      (w : world) :
  exists k results,
    niche_file (snd (main lib env args w))
    = niche_file w
      ++ firstn k (Header (threshold args)
                     :: lines_of (reported (threshold args) results)).
Proof.
  rewrite main_file_is_body_file. unfold main_body, bind.
  pose proof (discover_niches_keeps_file lib env (seed args) w) as Hkeep.
  destruct (discover_niches lib env (seed args) w) as [[results|e] w1];
    simpl in Hkeep.
  - destruct results as [|r rest].
    + exists 0%nat, []. simpl. rewrite app_nil_r. exact Hkeep.
    + destruct (report_appends env (threshold args) (r :: rest) w1)
        as [k Hk].
      exists k, (r :: rest). rewrite Hk, Hkeep. reflexivity.
  - exists 0%nat, []. simpl. rewrite app_nil_r. exact Hkeep.
Qed.

(** C9. The niche log is only ever appended to.  For every run, the file
    after the run is the file before it followed by an initial part of the
    run's header and qualifying lines (nothing when the run ends before
    the reporting step, less than all when the disk fails); when the run
    reaches the reporting step and the disk works, it is the file before
    followed by the header and all the qualifying lines; and over any
    number of runs the first (length-before) entries are unchanged. *)
Theorem niche_log_append_only :
  (forall lib env args w,
      exists k results,
        niche_file (snd (main lib env args w))
        = niche_file w
          ++ firstn k (Header (threshold args)
                         :: lines_of (reported (threshold args) results)))
  /\ (forall lib env args w results w1,
         discover_niches lib env (seed args) w = (Ret results, w1) ->
         results <> [] ->
         disk_ok env ->
         niche_file (snd (main lib env args w))
         = niche_file w
           ++ Header (threshold args)
                :: lines_of (reported (threshold args) results))
  /\ (forall lib l w,
         firstn (List.length (niche_file w)) (niche_file (runs lib l w))
         = niche_file w).
Proof.
  split; [exact main_appends|]. split.
  - intros lib env args w results w1 Hdisc Hne Hdisk.
    rewrite main_file_is_body_file. unfold main_body, bind.
    pose proof (discover_niches_keeps_file lib env (seed args) w) as Hkeep.
    rewrite Hdisc in *. simpl in Hkeep.
    destruct results as [|r rest]; [contradiction Hne; reflexivity|].
    destruct (report_disk_ok env (threshold args) (r :: rest) w1 Hdisk)
      as (w' & Hrun & _ & Hfile).
    rewrite Hrun. simpl. rewrite Hfile, Hkeep. reflexivity.
  - intros lib l w.
    assert (Hgrow : exists added,
               niche_file (runs lib l w) = niche_file w ++ added).
    { apply (preserves_runs
               (fun w1 w2 => exists added,
                    niche_file w2 = niche_file w1 ++ added)
               (fun _ => True));
        try (intros; exists []; simpl; rewrite app_nil_r; reflexivity);
        auto.
      - intros w1 w2 w3 [a1 H1] [a2 H2]. exists (a1 ++ a2).
        rewrite H2, H1, app_assoc. reflexivity.
      - intros x w0. exists [x]. reflexivity. }
    destruct Hgrow as [added Hadded].
    rewrite Hadded, firstn_app, Nat.sub_diag, firstn_all. simpl.
    apply app_nil_r.
Qed.

Lemma niche_log_append_only_witness :
  disk_ok Sample.env_ok
  /\ niche_file (snd (main Sample.lib Sample.env_ok Sample.args
                           Sample.world0))
     = [ Header 2000;
         NicheLine (VStr "coloring book for adults") 12;
         NicheLine (VStr "coloring book for kids") 12 ].
Proof.
  split; [intros t; reflexivity|].
  destruct niche_log_append_only as (_ & Hfull & _).
  assert (Hd : exists w1,
             discover_niches Sample.lib Sample.env_ok (seed Sample.args)
                             Sample.world0
             = (Ret [ (VStr "coloring book for adults", 12);
                      (VStr "coloring book for kids", 12) ], w1)).
  { eexists. vm_compute. reflexivity. }
  destruct Hd as [w1 Hd].
  rewrite (Hfull _ _ _ _ _ _ Hd); [reflexivity | discriminate |].
  intros t. reflexivity.
Defined.

(* ================================================================== *)
(** * The HTTP client: attempts, retried statuses, backoff, timeout *)










(* ================================================================== *)
(** * What the patterns capture *)

Lemma star_cls_inv {A} (p : ascii -> bool) (k : Text.chars -> option A)
      (a : A) :
  forall s,
    Text.star_cls p s k = Some a ->
    exists pre rest,
      s = pre ++ rest /\ Forall (fun c => p c = true) pre
      /\ k rest = Some a.
Proof.
  induction s as [|c s IH]; simpl; intros H.
  - exists [], []. auto.
  - destruct (p c) eqn:Hpc.
    + destruct (Text.star_cls p s k) as [a'|] eqn:Hs.
      * inversion H; subst a'.
        destruct (IH eq_refl) as (pre & rest & -> & Hpre & Hk).
        exists (c :: pre), rest. auto.
      * exists [], (c :: s). auto.
    + exists [], (c :: s). auto.
Qed.

Lemma rmatch_group_free {A} (r : Text.regex) :
  group_free r = true ->
  forall g s (k : option Text.chars -> Text.chars -> option A) a,
    Text.rmatch r g s k = Some a -> exists rest, k g rest = Some a.
Proof.
  induction r as [c|p|r1 IH1 r2 IH2|p|r IH]; simpl; intros Hfree g s k a H.
  - destruct s as [|x s]; [discriminate H|].
    destruct (Ascii.eqb x c); [|discriminate H]. eauto.
  - destruct s as [|x s]; [discriminate H|].
    destruct (p x); [|discriminate H]. eauto.
  - apply andb_true_iff in Hfree. destruct Hfree as [H1 H2].
    apply (IH1 H1) in H. destruct H as [rest1 H].
    apply (IH2 H2) in H. exact H.
  - apply star_cls_inv in H. destruct H as (pre & rest & _ & _ & H). eauto.
  - discriminate Hfree.
Qed.

Lemma rmatch_number_group {A} (g : option Text.chars) (s : Text.chars)
      (k : option Text.chars -> Text.chars -> option A) (a : A) :
  Text.rmatch number_group g s k = Some a ->
  exists cap rest, number_shape cap /\ k (Some cap) rest = Some a.
Proof.
  unfold number_group.
  change (Text.rmatch (Text.Grp (Text.Cat (Text.Cls Text.is_digit)
                                   (Text.StarCls Text.is_digit_or_comma)))
                      g s k)
    with (match s with
          | x :: s' =>
              if Text.is_digit x
              then Text.star_cls Text.is_digit_or_comma s'
                     (fun rest =>
                        k (Some (firstn (List.length s - List.length rest)
                                        s)) rest)
              else None
          | [] => None
          end).
  destruct s as [|x s']; [discriminate|].
  destruct (Text.is_digit x) eqn:Hx; [|discriminate].
  intros H. apply star_cls_inv in H.
  destruct H as (pre & rest & -> & Hpre & Hk).
  exists (x :: pre), rest. split.
  - exists x, pre. auto.
  - replace (firstn (List.length (x :: pre ++ rest) - List.length rest)
                    (x :: pre ++ rest)) with (x :: pre) in Hk; [exact Hk|].
    simpl List.length. rewrite length_app.
    replace (S (List.length pre + List.length rest) - List.length rest)%nat
      with (S (List.length pre)) by lia.
    simpl. f_equal.
    rewrite firstn_app, Nat.sub_diag, firstn_all. simpl.
    symmetry. apply app_nil_r.
Qed.

Lemma rmatch_captures_number {A} (r : Text.regex) :
  captures_number r ->
  forall g s (k : option Text.chars -> Text.chars -> option A) a,
    Text.rmatch r g s k = Some a ->
    exists cap rest, number_shape cap /\ k (Some cap) rest = Some a.
Proof.
  induction 1 as [|tail Htail|r1 r2 Hfree Hcap IH]; intros g s k a H.
  - apply rmatch_number_group in H. exact H.
  - change (Text.rmatch (Text.Cat number_group tail) g s k)
      with (Text.rmatch number_group g s
              (fun g' s' => Text.rmatch tail g' s' k)) in H.
    apply rmatch_number_group in H.
    destruct H as (cap & rest & Hshape & H).
    apply (rmatch_group_free tail Htail) in H. destruct H as [rest' H].
    eauto.
  - change (Text.rmatch (Text.Cat r1 r2) g s k)
      with (Text.rmatch r1 g s (fun g' s' => Text.rmatch r2 g' s' k)) in H.
    apply (rmatch_group_free r1 Hfree) in H. destruct H as [rest H].
    apply IH in H. exact H.
Qed.

Lemma patterns_capture_number (p : Text.regex) :
  In p patterns -> captures_number p.
Proof.
  unfold patterns. simpl.
  intros [<-|[<-|[<-|[<-|[]]]]].
  - apply cn_first. reflexivity.
  - apply cn_first. reflexivity.
  - repeat (apply cn_after; [reflexivity|]). apply cn_last.
  - apply cn_first. reflexivity.
Qed.

(** Group 1 of a match of any of the four patterns is a digit followed by
    digits and commas. *)
Lemma search_captures_number (p : Text.regex) :
  captures_number p ->
  forall s m,
    Text.search_from p s = Some m ->
    exists cap, m = Some cap /\ number_shape cap.
Proof.
  intros Hp. induction s as [|c s IH]; intros m H; simpl in H.
  - destruct (Text.rmatch p None [] (fun g _ => Some g)) as [g|] eqn:Hm;
      [|discriminate H].
    inversion H; subst g.
    apply (rmatch_captures_number p Hp) in Hm.
    destruct Hm as (cap & rest & Hshape & Hk). inversion Hk. eauto.
  - destruct (Text.rmatch p None (c :: s) (fun g _ => Some g)) as [g|] eqn:Hm.
    + inversion H; subst g.
      apply (rmatch_captures_number p Hp) in Hm.
      destruct Hm as (cap & rest & Hshape & Hk). inversion Hk. eauto.
    + apply IH. exact H.
Qed.

(** ** Converting the captured text *)

Ltac by_char c :=
  destruct c as [[] [] [] [] [] [] [] []]; vm_compute;
  try reflexivity; try discriminate; auto.

Lemma digit_not_space (c : ascii) :
  Text.is_digit c = true -> Text.is_space c = false.
Proof. by_char c. Qed.

Lemma digit_not_comma (c : ascii) :
  Text.is_digit c = true -> Text.is_comma c = false.
Proof. by_char c. Qed.

Lemma digit_not_sign (c : ascii) :
  Text.is_digit c = true ->
  (Text.code c =? 45)%N = false /\ (Text.code c =? 43)%N = false.
Proof. by_char c. Qed.

Lemma digit_value_nonneg (c : ascii) :
  Text.is_digit c = true -> 0 <= Text.digit_value c.
Proof. by_char c; intros _ H; discriminate H. Qed.

Lemma digits_acc_digits (ds : Text.chars) :
  Forall (fun c => Text.is_digit c = true) ds ->
  forall prev acc,
    0 <= acc -> prev = true \/ ds <> [] ->
    exists z, Text.digits_acc prev acc ds = Some z /\ 0 <= z.
Proof.
  induction 1 as [|c ds Hc Hds IH]; intros prev acc Hacc Hne;
    cbn [Text.digits_acc].
  - destruct Hne as [-> | Hne]; [eauto | contradiction Hne; reflexivity].
  - rewrite Hc. apply IH; [|left; reflexivity].
    pose proof (digit_value_nonneg c Hc). lia.
Qed.

Lemma lstrip_head (c : ascii) (s : Text.chars) :
  Text.is_space c = false -> Text.lstrip (c :: s) = c :: s.
Proof. intros H. simpl. rewrite H. reflexivity. Qed.

Lemma strip_digits (ds : Text.chars) :
  Forall (fun c => Text.is_digit c = true) ds -> Text.strip ds = ds.
Proof.
  intros Hds. unfold Text.strip.
  destruct ds as [|c ds']; [reflexivity|].
  rewrite lstrip_head
    by (apply digit_not_space; inversion Hds; assumption).
  destruct (rev (c :: ds')) as [|x l] eqn:Hrev.
  - apply (f_equal (@rev ascii)) in Hrev. rewrite rev_involutive in Hrev.
    discriminate Hrev.
  - rewrite lstrip_head.
    + rewrite <- Hrev. apply rev_involutive.
    + apply digit_not_space. rewrite Forall_forall in Hds. apply Hds.
      apply in_rev. rewrite Hrev. left. reflexivity.
Qed.

Lemma remove_commas_digits (g : Text.chars) :
  number_shape g ->
  exists d ds,
    Text.remove_commas g = d :: ds
    /\ Forall (fun c => Text.is_digit c = true) (d :: ds).
Proof.
  intros (d & tl & -> & Hd & Htl).
  exists d, (Text.remove_commas tl). unfold Text.remove_commas. simpl.
  rewrite (digit_not_comma d Hd). simpl. split; [reflexivity|].
  constructor; [exact Hd|].
  rewrite Forall_forall in *. intros c Hc.
  apply filter_In in Hc. destruct Hc as [Hin Hnc].
  specialize (Htl c Hin). unfold Text.is_digit_or_comma in Htl.
  destruct (Text.is_comma c); [discriminate Hnc|].
  rewrite orb_false_r in Htl. exact Htl.
Qed.

(** [int] of a captured number, commas removed, is a non-negative
    integer: the conversion never fails. *)
Lemma count_of_number (g : Text.chars) :
  number_shape g -> exists z, count_of_match (Some g) = Ret z /\ 0 <= z.
Proof.
  intros Hg. destruct (remove_commas_digits g Hg) as (d & ds & Hrm & Hall).
  unfold count_of_match, Text.py_int. rewrite Hrm, (strip_digits _ Hall).
  assert (Hd : Text.is_digit d = true) by (inversion Hall; assumption).
  destruct (digit_not_sign d Hd) as [H45 H43]. rewrite H45, H43.
  destruct (digits_acc_digits (d :: ds) Hall false 0) as (z & Hz & Hpos);
    [lia | right; discriminate |].
  rewrite Hz. eauto.
Qed.


Lemma try_patterns_some (ps : list Text.regex) (txt : string)
      (r : outcome Z) :
  try_patterns ps txt = Some r
  <-> exists ps1 p ps2 m,
        ps = ps1 ++ p :: ps2
        /\ (forall q, In q ps1 -> Text.re_search q txt = None)
        /\ Text.re_search p txt = Some m
        /\ r = count_of_match m.
Proof.
  induction ps as [|p ps IH]; simpl.
  - split; [discriminate|].
    intros (ps1 & q & ps2 & m & H & _). destruct ps1; discriminate H.
  - destruct (Text.re_search p txt) as [m|] eqn:Hp.
    + split.
      * intros H. inversion H; subst r.
        exists [], p, ps, m. simpl. intuition.
      * intros (ps1 & q & ps2 & m' & Heq & Hnone & Hq & ->).
        destruct ps1 as [|p1 ps1]; simpl in Heq; inversion Heq; subst.
        -- congruence.
        -- specialize (Hnone p1 (or_introl eq_refl)). congruence.
    + rewrite IH. split.
      * intros (ps1 & q & ps2 & m & -> & Hnone & Hq & ->).
        exists (p :: ps1), q, ps2, m. simpl. intuition. subst. exact Hp.
      * intros (ps1 & q & ps2 & m & Heq & Hnone & Hq & ->).
        destruct ps1 as [|p1 ps1]; simpl in Heq; inversion Heq; subst.
        -- congruence.
        -- exists ps1, q, ps2, m.
           split; [reflexivity|].
           split; [intros q0 Hq0; apply Hnone; right; exact Hq0|].
           split; [exact Hq | reflexivity].
Qed.

(** When the inner loop returns, it returns a non-negative integer. *)
Lemma try_patterns_nonneg (txt : string) (r : outcome Z) :
  try_patterns patterns txt = Some r -> exists z, r = Ret z /\ 0 <= z.
Proof.
  intros H. apply try_patterns_some in H.
  destruct H as (ps1 & p & ps2 & m & Heq & _ & Hm & ->).
  assert (Hin : In p patterns).
  { rewrite Heq. apply in_or_app. right. left. reflexivity. }
  apply (search_captures_number p (patterns_capture_number p Hin)) in Hm.
  destruct Hm as (cap & -> & Hshape).
  apply count_of_number. exact Hshape.
Qed.

(* ================================================================== *)
(** * The outer loop: which selector decides *)

Lemma try_selectors_step (sel : string * list (string * string))
      (sels : list (string * list (string * string))) (page : Soup.soup) :
  try_selectors (sel :: sels) page
  = match selector_number page sel with
    | Some r => Some r
    | None => try_selectors sels page
    end.
Proof.
  destruct sel as [tag attrs]. unfold selector_number. simpl.
  destruct (Soup.find tag attrs page); reflexivity.
Qed.

Lemma try_selectors_none (sels : list (string * list (string * string)))
      (page : Soup.soup) :
  try_selectors sels page = None
  <-> forall sel, In sel sels -> selector_number page sel = None.
Proof.
  induction sels as [|sel sels IH].
  - simpl. split; [intros _ sel [] | reflexivity].
  - rewrite try_selectors_step.
    destruct (selector_number page sel) as [r|] eqn:Hsel.
    + split; [discriminate|]. intros H.
      specialize (H sel (or_introl eq_refl)). congruence.
    + rewrite IH. split.
      * intros H q [<-|Hq]; [exact Hsel | apply H; exact Hq].
      * intros H q Hq. apply H. right. exact Hq.
Qed.

Lemma try_selectors_some (sels : list (string * list (string * string)))
      (page : Soup.soup) (r : outcome Z) :
  try_selectors sels page = Some r
  <-> exists s1 sel s2,
        sels = s1 ++ sel :: s2
        /\ (forall q, In q s1 -> selector_number page q = None)
        /\ selector_number page sel = Some r.
Proof.
  induction sels as [|sel sels IH].
  - simpl. split; [discriminate|].
    intros (s1 & q & s2 & H & _). destruct s1; discriminate H.
  - rewrite try_selectors_step.
    destruct (selector_number page sel) as [r0|] eqn:Hsel.
    + split.
      * intros H. inversion H; subst r0.
        exists [], sel, sels. simpl.
        split; [reflexivity|]. split; [intros q []|exact Hsel].
      * intros (s1 & q & s2 & Heq & Hnone & Hq).
        destruct s1 as [|q1 s1]; simpl in Heq; inversion Heq; subst.
        -- congruence.
        -- specialize (Hnone q1 (or_introl eq_refl)). congruence.
    + rewrite IH. split.
      * intros (s1 & q & s2 & -> & Hnone & Hq).
        exists (sel :: s1), q, s2.
        split; [reflexivity|]. split; [|exact Hq].
        intros q0 [<-|Hq0]; [exact Hsel | apply Hnone; exact Hq0].
      * intros (s1 & q & s2 & Heq & Hnone & Hq).
        destruct s1 as [|q1 s1]; simpl in Heq; inversion Heq; subst.
        -- congruence.
        -- exists s1, q, s2.
           split; [reflexivity|]. split; [|exact Hq].
           intros q0 Hq0. apply Hnone. right. exact Hq0.
Qed.


(** Whatever the page, the two loops end with a non-negative integer or
    with nothing. *)
Lemma try_selectors_nonneg (sels : list (string * list (string * string)))
      (page : Soup.soup) (r : outcome Z) :
  try_selectors sels page = Some r -> exists z, r = Ret z /\ 0 <= z.
Proof.
  intros H. apply try_selectors_some in H.
  destruct H as (s1 & sel & s2 & _ & _ & Hsel).
  unfold selector_number in Hsel.
  destruct (Soup.find (fst sel) (snd sel) page) as [el|];
    [|discriminate Hsel].
  apply try_patterns_nonneg in Hsel. exact Hsel.
Qed.

Lemma extract_count_total (keyword : value) (page : Soup.soup) (w : world) :
  exists z w',
    extract_count keyword page w = (Ret z, w') /\ (z = -1 \/ 0 <= z).
Proof.
  unfold extract_count.
  destruct (try_selectors selectors page) as [r|] eqn:Hsel.
  - apply try_selectors_nonneg in Hsel. destruct Hsel as (z & -> & Hz).
    exists z, w. auto.
  - eexists _, _. split; [reflexivity|]. left. reflexivity.
Qed.

(** When the request succeeds, [get_result_count] is the two loops on the
    parsed page. *)
Lemma get_result_count_on_page (lib : library) (env : environment)
      (session : Session) (keyword : string) (w w1 : world)
      (resp : response) (page : Soup.soup) :
  session_get env session (search_url lib keyword) REQUEST_TIMEOUT w
  = (Ret resp, w1) ->
  status_ok resp = true ->
  html_parser lib (text resp) = Some page ->
  get_result_count lib env session (VStr keyword) w
  = extract_count (VStr keyword) page w1.
Proof.
  intros Hget Hstatus Hparse.
  unfold get_result_count, try_except, quote_keyword, BeautifulSoup.
  unfold search_url in Hget.
  unfold bind at 1. unfold ret at 1.
  unfold bind at 1. rewrite Hget.
  unfold bind at 1. unfold raise_for_status.
  unfold status_ok in Hstatus. apply negb_true_iff in Hstatus.
  rewrite Hstatus. unfold ret at 1.
  unfold bind at 1. rewrite Hparse. unfold ret at 1.
  destruct (extract_count_total (VStr keyword) page w1)
    as (z & w' & Hrun & _).
  rewrite Hrun. reflexivity.
Qed.




(* ================================================================== *)
(** * What the fetchers raise and return *)

Lemma returns_only_ret {A} (Q : A -> Prop) (a : A) :
  Q a -> returns_only Q (ret a).
Proof. intros Ha w a' w' H. inversion H; subst. exact Ha. Qed.

Lemma returns_only_raise {A} (Q : A -> Prop) (e : exn) :
  returns_only Q (raise e).
Proof. intros w a w' H. discriminate H. Qed.

Lemma returns_only_bind {A B} (Q : B -> Prop) (c : M A) (k : A -> M B) :
  (forall a, returns_only Q (k a)) -> returns_only Q (bind c k).
Proof.
  intros Hk w b w' H. unfold bind in H.
  destruct (c w) as [[a|e] w1]; [|discriminate H].
  eapply Hk; eassumption.
Qed.

Lemma returns_only_try_except {A} (Q : A -> Prop) (body : M A)
      (handler : exn -> option (M A)) :
  returns_only Q body ->
  (forall e h, handler e = Some h -> returns_only Q h) ->
  returns_only Q (try_except body handler).
Proof.
  intros Hb Hh w a w' H. unfold try_except in H.
  destruct (body w) as [[a0|e] w1] eqn:Hbw.
  - inversion H; subst. eapply Hb; eassumption.
  - destruct (handler e) as [h|] eqn:He; [|discriminate H].
    eapply Hh; eassumption.
Qed.

Lemma raises_blocking (env : environment) :
  raises_only (interrupt_of env) (blocking env).
Proof.
  intros w e w' H. unfold blocking, bind, tick, raise, ret in H.
  simpl in H. destruct (ctrl_c env (clock w)) eqn:Hc; [|discriminate H].
  inversion H; subst. split; [reflexivity | eauto].
Qed.

Lemma raises_backoff_sleep (env : environment) (r : Retry) (n : nat) :
  raises_only (interrupt_of env) (backoff_sleep env r n).
Proof.
  unfold backoff_sleep.
  destruct (get_backoff_time r n <=? 0); [apply raises_only_ret|].
  apply raises_only_bind; [apply raises_blocking|].
  intros _. apply raises_only_emit.
Qed.

(** [session.get] raises a [RequestException], or is interrupted. *)
Lemma raises_urlopen (env : environment) (r : Retry) (url : string)
      (timeout : Z) :
  forall n errors,
    raises_only (fun e => is_RequestException e = true
                          \/ interrupt_of env e)
                (urlopen env r n errors url timeout).
Proof.
  induction n as [|n IH]; intros errors; simpl;
    (apply raises_only_bind;
     [eapply raises_only_weaken; [|apply raises_blocking]; auto|];
     intros t; apply raises_only_bind; [apply raises_only_emit|];
     intros _; destruct (server env t url) as [status body|msg]).
  - destruct (in_forcelist status r);
      [apply raises_only_raise; left; reflexivity | apply raises_only_ret].
  - apply raises_only_raise. left. reflexivity.
  - destruct (in_forcelist status r); [|apply raises_only_ret].
    apply raises_only_bind; [|intros _; apply IH].
    eapply raises_only_weaken; [|apply raises_backoff_sleep]. auto.
  - apply raises_only_bind; [|intros _; apply IH].
    eapply raises_only_weaken; [|apply raises_backoff_sleep]. auto.
Qed.

Lemma request_is_exception (e : exn) :
  is_RequestException e = true -> is_Exception e = true.
Proof. destruct e; simpl; congruence. Qed.

Lemma interrupt_not_exception (env : environment) (e : exn) :
  interrupt_of env e -> is_Exception e = false.
Proof. intros [-> _]. reflexivity. Qed.

Lemma raises_raise_for_status (resp : response) :
  raises_only (fun e => is_RequestException e = true)
              (raise_for_status resp).
Proof.
  unfold raise_for_status.
  destruct ((400 <=? status_code resp) && (status_code resp <? 600));
    [apply raises_only_raise; reflexivity | apply raises_only_ret].
Qed.

(** The body of the [try] of [get_result_count] raises an [Exception],
    or is interrupted. *)
Lemma raises_count_body (lib : library) (env : environment)
      (session : Session) (keyword : value) :
  raises_only
    (fun e => is_Exception e = true \/ interrupt_of env e)
    (q <- quote_keyword lib keyword ;;
     resp <- session_get env session (BASE_URL ++ "?k=" ++ q)%string
                         REQUEST_TIMEOUT ;;
     raise_for_status resp ;;
     page <- BeautifulSoup lib (text resp) ;;
     extract_count keyword page).
Proof.
  apply raises_only_bind.
  { unfold quote_keyword.
    destruct keyword; try (apply raises_only_raise; left; reflexivity).
    apply raises_only_ret. }
  intros q. apply raises_only_bind.
  { eapply raises_only_weaken; [|apply raises_urlopen].
    intros e [H|H]; [left; apply request_is_exception; exact H | auto]. }
  intros resp. apply raises_only_bind.
  { eapply raises_only_weaken; [|apply raises_raise_for_status].
    intros e H. left. apply request_is_exception. exact H. }
  intros _. apply raises_only_bind.
  { unfold BeautifulSoup. destruct (html_parser lib (text resp));
      [apply raises_only_ret | apply raises_only_raise; left; reflexivity]. }
  intros page w e w' H.
  destruct (extract_count_total keyword page w) as (z & w1 & Hrun & _).
  congruence.
Qed.

Lemma count_handler_some (keyword : value) (e : exn) :
  is_Exception e = true ->
  exists m,
    count_handler keyword e = Some (log ERROR m ;; ret (-1)).
Proof.
  intros He. unfold count_handler.
  destruct (is_RequestException e); [eauto|]. rewrite He. eauto.
Qed.

Lemma count_handler_inv (keyword : value) (e : exn) (h : M Z) :
  count_handler keyword e = Some h ->
  exists m, h = (log ERROR m ;; ret (-1)).
Proof.
  unfold count_handler.
  destruct (is_RequestException e); [intros H; inversion H; eauto|].
  destruct (is_Exception e); [intros H; inversion H; eauto | discriminate].
Qed.

Lemma raises_get_result_count (lib : library) (env : environment)
      (session : Session) (keyword : value) :
  raises_only (interrupt_of env)
              (get_result_count lib env session keyword).
Proof.
  unfold get_result_count.
  eapply raises_only_try_except; [apply raises_count_body| |].
  - intros e h _ Hh. apply count_handler_inv in Hh. destruct Hh as [m ->].
    apply raises_only_bind; [apply raises_only_log|].
    intros _. apply raises_only_ret.
  - intros e [He|He] Hnone; [|exact He].
    destruct (count_handler_some keyword e He) as [m Hm]. congruence.
Qed.

Lemma returns_get_result_count (lib : library) (env : environment)
      (session : Session) (keyword : value) :
  returns_only (fun z => z = -1 \/ 0 <= z)
               (get_result_count lib env session keyword).
Proof.
  unfold get_result_count. apply returns_only_try_except.
  - apply returns_only_bind. intros q.
    apply returns_only_bind. intros resp.
    apply returns_only_bind. intros _.
    apply returns_only_bind. intros page w z w' H.
    destruct (extract_count_total keyword page w) as (z1 & w1 & Hrun & Hz).
    rewrite Hrun in H. inversion H; subst. exact Hz.
  - intros e h Hh. apply count_handler_inv in Hh. destruct Hh as [m ->].
    apply returns_only_bind. intros _.
    apply returns_only_ret. left. reflexivity.
Qed.

(** When the body of the [try] raises an [Exception], the result is the
    sentinel. *)
Lemma get_result_count_failure (lib : library) (env : environment)
      (session : Session) (keyword : value) (w w1 : world) (e : exn) :
  (q <- quote_keyword lib keyword ;;
   resp <- session_get env session (BASE_URL ++ "?k=" ++ q)%string
                       REQUEST_TIMEOUT ;;
   raise_for_status resp ;;
   page <- BeautifulSoup lib (text resp) ;;
   extract_count keyword page) w = (Raise e, w1) ->
  is_Exception e = true ->
  fst (get_result_count lib env session keyword w) = Ret (-1).
Proof.
  intros Hbody He. unfold get_result_count, try_except.
  rewrite Hbody.
  destruct (count_handler_some keyword e He) as [m ->].
  reflexivity.
Qed.

(** C4, as the code has it.  Whenever [get_result_count] returns, it
    returns -1 or a non-negative integer, and no exception of class
    [Exception] leaves it: a failed request, an HTTP error status, a parser
    failure, a keyword that cannot be quoted and a page without a match
    each give -1.  What does leave it is the operator's interrupt, a
    [KeyboardInterrupt], which the two [except] clauses do not catch; when
    the operator does not interrupt, the call returns. *)
Theorem result_count_or_sentinel :
  forall (lib : library) (env : environment) (session : Session)
         (keyword : value) (w : world),
    match fst (get_result_count lib env session keyword w) with
    | Ret z => z = -1 \/ 0 <= z
    | Raise e => e = KeyboardInterrupt /\ exists t, ctrl_c env t = true
    end
    /\ (no_interrupt env ->
        exists z,
          fst (get_result_count lib env session keyword w) = Ret z
          /\ (z = -1 \/ 0 <= z))
    /\ (forall kw e w1,
           keyword = VStr kw ->
           session_get env session (search_url lib kw) REQUEST_TIMEOUT w
           = (Raise e, w1) ->
           is_Exception e = true ->
           fst (get_result_count lib env session keyword w) = Ret (-1))
    /\ (forall kw resp w1,
           keyword = VStr kw ->
           session_get env session (search_url lib kw) REQUEST_TIMEOUT w
           = (Ret resp, w1) ->
           status_ok resp = false ->
           fst (get_result_count lib env session keyword w) = Ret (-1))
    /\ (forall kw resp w1,
           keyword = VStr kw ->
           session_get env session (search_url lib kw) REQUEST_TIMEOUT w
           = (Ret resp, w1) ->
           status_ok resp = true ->
           html_parser lib (text resp) = None ->
           fst (get_result_count lib env session keyword w) = Ret (-1))
    /\ (forall kw resp w1 page,
           keyword = VStr kw ->
           session_get env session (search_url lib kw) REQUEST_TIMEOUT w
           = (Ret resp, w1) ->
           status_ok resp = true ->
           html_parser lib (text resp) = Some page ->
           (forall sel, In sel selectors ->
                        selector_number page sel = None) ->
           fst (get_result_count lib env session keyword w) = Ret (-1))
    /\ ((forall kw, keyword <> VStr kw) ->
        fst (get_result_count lib env session keyword w) = Ret (-1)).
Proof.
  intros lib env session keyword w.
  assert (Hcases :
            match fst (get_result_count lib env session keyword w) with
            | Ret z => z = -1 \/ 0 <= z
            | Raise e => interrupt_of env e
            end).
  { destruct (get_result_count lib env session keyword w) as [[z|e] w1]
      eqn:Hrun; simpl.
    - eapply returns_get_result_count. exact Hrun.
    - eapply raises_get_result_count. exact Hrun. }
  split; [exact Hcases|]. split.
  { intros Hquiet.
    destruct (fst (get_result_count lib env session keyword w)) as [z|e].
    - eauto.
    - destruct Hcases as [_ [t Ht]]. rewrite Hquiet in Ht. discriminate Ht. }
  split.
  { intros kw e w1 -> Hget He.
    apply get_result_count_failure with (w1 := w1) (e := e); [|exact He].
    unfold quote_keyword. unfold bind at 1. unfold ret at 1.
    unfold bind at 1. unfold search_url in Hget. rewrite Hget.
    reflexivity. }
  split.
  { intros kw resp w1 -> Hget Hstatus.
    apply get_result_count_failure
      with (w1 := w1) (e := RequestException "HTTPError");
      [|reflexivity].
    unfold quote_keyword. unfold bind at 1. unfold ret at 1.
    unfold bind at 1. unfold search_url in Hget. rewrite Hget.
    unfold bind at 1. unfold raise_for_status.
    unfold status_ok in Hstatus. apply negb_false_iff in Hstatus.
    rewrite Hstatus. reflexivity. }
  split.
  { intros kw resp w1 -> Hget Hstatus Hparse.
    apply get_result_count_failure
      with (w1 := w1) (e := PyException "ParserRejectedMarkup" "");
      [|reflexivity].
    unfold quote_keyword. unfold bind at 1. unfold ret at 1.
    unfold bind at 1. unfold search_url in Hget. rewrite Hget.
    unfold bind at 1. unfold raise_for_status.
    unfold status_ok in Hstatus. apply negb_true_iff in Hstatus.
    rewrite Hstatus. unfold ret at 1.
    unfold bind at 1. unfold BeautifulSoup. rewrite Hparse.
    reflexivity. }
  split.
  { intros kw resp w1 page -> Hget Hstatus Hparse Hnone.
    rewrite (get_result_count_on_page lib env session kw w w1 resp page
               Hget Hstatus Hparse).
    apply try_selectors_none in Hnone.
    unfold extract_count. rewrite Hnone. reflexivity. }
  intros Hnot.
  apply get_result_count_failure
    with (w1 := w)
         (e := PyException "TypeError" "quote_from_bytes() expected bytes");
    [|reflexivity].
  unfold quote_keyword. unfold bind at 1.
  destruct keyword; try reflexivity.
  contradiction (Hnot s). reflexivity.
Qed.

Lemma result_count_or_sentinel_witness :
  no_interrupt (Sample.env_status 404)
  /\ fst (get_result_count Sample.lib (Sample.env_status 404)
                           create_session
                           (VStr "coloring book for adults") Sample.world0)
     = Ret (-1).
Proof.
  split; [intros t; reflexivity|].
  destruct (result_count_or_sentinel
              Sample.lib (Sample.env_status 404) create_session
              (VStr "coloring book for adults") Sample.world0)
    as (_ & _ & _ & Hstatus & _).
  eapply (Hstatus "coloring book for adults" (mkResponse 404 "body")).
  - reflexivity.
  - vm_compute. reflexivity.
  - reflexivity.
Defined.

(** Against C4 as the specification states it (no exception ever leaves
    [get_result_count]): an interrupt by the operator while the request is
    under way leaves it as a [KeyboardInterrupt], which is not an
    [Exception]. *)
Lemma result_count_interrupted :
  get_result_count Sample.lib Sample.env_interrupted create_session
                   (VStr "coloring book for adults") Sample.world0
  = (Raise KeyboardInterrupt, mkWorld 1 [] [] [] [])
  /\ is_Exception KeyboardInterrupt = false.
Proof. split; [vm_compute; reflexivity | reflexivity]. Qed.

(* ================================================================== *)
(** * The result depends on the page text only *)

Lemma extract_count_same_page (kw1 kw2 : value) (page : Soup.soup)
      (w1 w2 : world) :
  fst (extract_count kw1 page w1) = fst (extract_count kw2 page w2).
Proof.
  unfold extract_count.
  destruct (try_selectors selectors page); reflexivity.
Qed.

Lemma get_result_count_unparsed (lib : library) (env : environment)
      (session : Session) (keyword : string) (w w1 : world)
      (resp : response) :
  session_get env session (search_url lib keyword) REQUEST_TIMEOUT w
  = (Ret resp, w1) ->
  status_ok resp = true ->
  html_parser lib (text resp) = None ->
  fst (get_result_count lib env session (VStr keyword) w) = Ret (-1).
Proof.
  intros Hget Hstatus Hparse.
  apply get_result_count_failure
    with (w1 := w1) (e := PyException "ParserRejectedMarkup" "");
    [|reflexivity].
  unfold quote_keyword. unfold bind at 1. unfold ret at 1.
  unfold bind at 1. unfold search_url in Hget. rewrite Hget.
  unfold bind at 1. unfold raise_for_status.
  unfold status_ok in Hstatus. apply negb_true_iff in Hstatus.
  rewrite Hstatus. unfold ret at 1.
  unfold bind at 1. unfold BeautifulSoup. rewrite Hparse.
  reflexivity.
Qed.

(** C6. The extraction is a function of the fetched page text alone: two
    runs of the loops on the same parsed page give the same result, and
    two calls of [get_result_count] whose requests brought back the same
    page text give the same result (the same integer, or -1 both times),
    whatever the keywords, the sessions, the environments and the worlds
    of the two calls are. *)
Theorem result_count_deterministic :
  forall (lib : library),
    (forall kw1 kw2 page w1 w2,
        fst (extract_count kw1 page w1) = fst (extract_count kw2 page w2))
    /\ (forall env1 env2 session1 session2 kw1 kw2 w1 w2
               resp1 resp2 w1' w2',
           session_get env1 session1 (search_url lib kw1)
                       REQUEST_TIMEOUT w1 = (Ret resp1, w1') ->
           session_get env2 session2 (search_url lib kw2)
                       REQUEST_TIMEOUT w2 = (Ret resp2, w2') ->
           status_ok resp1 = true ->
           status_ok resp2 = true ->
           text resp1 = text resp2 ->
           fst (get_result_count lib env1 session1 (VStr kw1) w1)
           = fst (get_result_count lib env2 session2 (VStr kw2) w2)).
Proof.
  intros lib. split; [apply extract_count_same_page|].
  intros env1 env2 session1 session2 kw1 kw2 w1 w2 resp1 resp2 w1' w2'
         Hget1 Hget2 Hs1 Hs2 Htext.
  destruct (html_parser lib (text resp1)) as [page|] eqn:Hparse.
  - rewrite (get_result_count_on_page lib env1 session1 kw1 w1 w1' resp1
               page Hget1 Hs1 Hparse).
    rewrite Htext in Hparse.
    rewrite (get_result_count_on_page lib env2 session2 kw2 w2 w2' resp2
               page Hget2 Hs2 Hparse).
    apply extract_count_same_page.
  - rewrite (get_result_count_unparsed lib env1 session1 kw1 w1 w1' resp1
               Hget1 Hs1 Hparse).
    rewrite Htext in Hparse.
    rewrite (get_result_count_unparsed lib env2 session2 kw2 w2 w2' resp2
               Hget2 Hs2 Hparse).
    reflexivity.
Qed.

Lemma result_count_deterministic_witness :
  fst (get_result_count Sample.lib Sample.env_ok create_session
                        (VStr "coloring book for adults") Sample.world0)
  = fst (get_result_count Sample.lib Sample.env_ok
                          (mkSession (mkRetry 0 0 []) [])
                          (VStr "coloring book for kids")
                          (mkWorld 7 [Pause] [] [Cancelled] [])).
Proof.
  destruct (result_count_deterministic Sample.lib) as [_ Hsame].
  eapply (Hsame Sample.env_ok Sample.env_ok create_session
                (mkSession (mkRetry 0 0 []) [])
                "coloring book for adults" "coloring book for kids"
                Sample.world0 (mkWorld 7 [Pause] [] [Cancelled] [])
                (mkResponse 200 "body") (mkResponse 200 "body")).
  - vm_compute. reflexivity.
  - vm_compute. reflexivity.
  - reflexivity.
  - reflexivity.
  - reflexivity.
Defined.

(* ================================================================== *)
(** * The suggestions *)

Lemma values_of_dicts (items : list value) :
  Forall (fun v => is_dict v = true) items ->
  values_of items = Ret (field_values items).
Proof.
  induction 1 as [|item rest Hitem Hrest IH]; [reflexivity|].
  destruct item; try discriminate Hitem.
  cbn [values_of py_contains py_getitem field_values flat_map].
  unfold dict_has.
  destruct (dict_get "value" entries) as [v|]; rewrite IH; reflexivity.
Qed.

Lemma values_of_any (items : list value) :
  values_of items = Ret (field_values items)
  \/ exists e, values_of items = Raise e /\ is_Exception e = true.
Proof.
  induction items as [|item rest IH]; [left; reflexivity|].
  destruct item;
    cbn [values_of py_contains py_getitem field_values flat_map app];
    try (right; eexists; split; reflexivity).
  - destruct (str_contains "value" s);
      [right; eexists; split; reflexivity | exact IH].
  - destruct (existsb (is_str "value") items);
      [right; eexists; split; reflexivity | exact IH].
  - unfold dict_has.
    destruct (dict_get "value" entries) as [v|]; [|exact IH].
    destruct IH as [-> | (e & -> & He)]; [left; reflexivity|].
    right. eauto.
Qed.

Lemma field_values_no_dict (items : list value) :
  Forall (fun v => is_dict v = false) items -> field_values items = [].
Proof.
  induction 1 as [|item rest Hitem Hrest IH]; [reflexivity|].
  destruct item; try discriminate Hitem; exact IH.
Qed.

(** Iterating over anything but a list gives no dict. *)
Lemma py_iter_not_list (v : value) (items : list value) :
  is_list v = false -> py_iter v = Ret items ->
  Forall (fun x => is_dict x = false) items.
Proof.
  destruct v; simpl; intros Hl H; try discriminate.
  - inversion H; subst. apply Forall_forall. intros x Hx.
    apply in_map_iff in Hx. destruct Hx as (c & <- & _). reflexivity.
  - inversion H; subst. apply Forall_forall. intros x Hx.
    apply in_map_iff in Hx. destruct Hx as (kv & <- & _). reflexivity.
Qed.

Lemma py_iter_raises (v : value) (e : exn) :
  py_iter v = Raise e -> is_Exception e = true.
Proof. destruct v; simpl; intros H; inversion H; reflexivity. Qed.

Lemma suggestions_handler_some (resp : option response) (e : exn) :
  is_Exception e = true ->
  exists h,
    suggestions_handler resp e = Some h
    /\ forall w, fst (h w) = Ret [].
Proof.
  intros He. unfold suggestions_handler.
  destruct (is_RequestException e); [|rewrite He];
    eexists; (split; [reflexivity|]); intros w; reflexivity.
Qed.

Lemma suggestions_handler_inv (resp : option response) (e : exn)
      (h : M (list value)) :
  suggestions_handler resp e = Some h ->
  is_Exception e = true /\ forall w, exists w', h w = (Ret [], w').
Proof.
  unfold suggestions_handler.
  destruct (is_RequestException e) eqn:Hr.
  - intros H. inversion H; subst. split.
    + apply request_is_exception. exact Hr.
    + intros w. eexists. reflexivity.
  - destruct (is_Exception e); [|discriminate].
    intros H. inversion H; subst. split; [reflexivity|].
    intros w. eexists. reflexivity.
Qed.

(** An [Exception] in the body of the [try] ends in the empty list. *)
Lemma handled_gives_empty (resp : option response)
      (body : M (list value)) (w w1 : world) (e : exn) :
  body w = (Raise e, w1) ->
  is_Exception e = true ->
  fst (try_except body (suggestions_handler resp) w) = Ret [].
Proof.
  intros Hbody He. unfold try_except. rewrite Hbody.
  destruct (suggestions_handler_some resp e He) as (h & -> & Hh).
  apply Hh.
Qed.

Lemma get_suggestions_after_response (lib : library) (env : environment)
      (session : Session) (seed : string) (w w1 : world)
      (resp : response) :
  session_get env session (suggestion_url lib seed) REQUEST_TIMEOUT w
  = (Ret resp, w1) ->
  get_suggestions lib env session seed w
  = try_except (read_suggestions lib resp)
               (suggestions_handler (Some resp)) w1.
Proof. intros Hget. unfold get_suggestions. rewrite Hget. reflexivity. Qed.

Lemma get_suggestions_request_failed (lib : library) (env : environment)
      (session : Session) (seed : string) (w w1 : world) (e : exn) :
  session_get env session (suggestion_url lib seed) REQUEST_TIMEOUT w
  = (Raise e, w1) ->
  is_Exception e = true ->
  fst (get_suggestions lib env session seed w) = Ret [].
Proof.
  intros Hget He. unfold get_suggestions. rewrite Hget.
  apply handled_gives_empty with (w1 := w1) (e := e);
    [reflexivity | exact He].
Qed.

(** The body of the [try] once the response is parsed as JSON. *)
Lemma read_suggestions_data (lib : library) (resp : response)
      (data : value) (w : world) :
  status_ok resp = true ->
  json_loads lib (text resp) = Some data ->
  read_suggestions lib resp w
  = match data with
    | VDict entries =>
        match dict_get "suggestions" entries with
        | Some suggestions =>
            (items <- lift (py_iter suggestions) ;; lift (values_of items)) w
        | None => (log WARNING MsgUnexpectedFormat ;; ret []) w
        end
    | _ => (log WARNING MsgUnexpectedFormat ;; ret []) w
    end.
Proof.
  intros Hstatus Hjson. unfold read_suggestions, raise_for_status.
  unfold status_ok in Hstatus. apply negb_true_iff in Hstatus.
  rewrite Hstatus. unfold bind at 1. unfold ret at 1.
  unfold bind at 1. unfold response_json. rewrite Hjson. unfold ret at 1.
  destruct data; try reflexivity.
  destruct (dict_get "suggestions" entries); reflexivity.
Qed.

(** A response with a "suggestions" list gives the value fields of its
    dicts, or nothing when an item makes the comprehension fail. *)
Lemma get_suggestions_list (lib : library) (env : environment)
      (session : Session) (seed : string) (w w1 : world) (resp : response)
      (entries : list (string * value)) (items : list value) :
  session_get env session (suggestion_url lib seed) REQUEST_TIMEOUT w
  = (Ret resp, w1) ->
  status_ok resp = true ->
  json_loads lib (text resp) = Some (VDict entries) ->
  dict_get "suggestions" entries = Some (VList items) ->
  (values_of items = Ret (field_values items)
   /\ get_suggestions lib env session seed w
      = (Ret (field_values items), w1))
  \/ ((exists e, values_of items = Raise e)
      /\ fst (get_suggestions lib env session seed w) = Ret []).
Proof.
  intros Hget Hstatus Hjson Hfield.
  rewrite (get_suggestions_after_response _ _ _ _ _ _ _ Hget).
  pose proof (read_suggestions_data lib resp _ w1 Hstatus Hjson) as Hread.
  cbv beta iota in Hread. rewrite Hfield in Hread.
  unfold bind, lift in Hread. simpl in Hread.
  destruct (values_of_any items) as [Hv | (e & Hv & He)];
    rewrite Hv in Hread.
  - left. split; [exact Hv|]. unfold try_except. rewrite Hread. reflexivity.
  - right. split; [eauto|].
    apply handled_gives_empty with (w1 := w1) (e := e); assumption.
Qed.

Lemma raises_read_suggestions (lib : library) (resp : response) :
  raises_only (fun e => is_Exception e = true) (read_suggestions lib resp).
Proof.
  unfold read_suggestions. apply raises_only_bind.
  { eapply raises_only_weaken; [|apply raises_raise_for_status].
    apply request_is_exception. }
  intros _. apply raises_only_bind.
  { unfold response_json. destruct (json_loads lib (text resp));
      [apply raises_only_ret | apply raises_only_raise; reflexivity]. }
  intros data.
  assert (Hwarn : raises_only (fun e => is_Exception e = true)
                              (log WARNING MsgUnexpectedFormat ;;
                               @ret (list value) [])).
  { apply raises_only_bind; [apply raises_only_log|].
    intros _. apply raises_only_ret. }
  destruct data; try exact Hwarn.
  destruct (dict_get "suggestions" entries) as [v|]; [|exact Hwarn].
  apply raises_only_bind.
  { apply raises_only_lift. apply py_iter_raises. }
  intros items. apply raises_only_lift. intros e He.
  destruct (values_of_any items) as [Hv | (e' & Hv & He')]; congruence.
Qed.

Lemma raises_get_suggestions (lib : library) (env : environment)
      (session : Session) (seed : string) :
  raises_only (interrupt_of env) (get_suggestions lib env session seed).
Proof.
  intros w e w' H. unfold get_suggestions in H.
  destruct (session_get env session (suggestion_url lib seed)
                        REQUEST_TIMEOUT w) as [[resp|e0] w1] eqn:Hget.
  - unfold try_except in H.
    destruct (read_suggestions lib resp w1) as [[l|e1] w2] eqn:Hread;
      [discriminate H|].
    pose proof (raises_read_suggestions lib resp _ _ _ Hread) as He1.
    destruct (suggestions_handler_some (Some resp) e1 He1)
      as (h & Hh & Hempty).
    rewrite Hh in H. specialize (Hempty w2). rewrite H in Hempty.
    discriminate Hempty.
  - pose proof (raises_urlopen env _ _ _ _ _ _ _ _ Hget) as [Hr | Hi].
    + apply request_is_exception in Hr.
      rewrite (surjective_pairing (try_except _ _ w1)) in H.
      rewrite (handled_gives_empty None (raise e0) w1 w1 e0 eq_refl Hr)
        in H.
      discriminate H.
    + destruct Hi as [-> Hc]. unfold try_except, raise in H. simpl in H.
      inversion H; subst. split; [reflexivity | exact Hc].
Qed.

(** C5, as the code has it.  No exception of class [Exception] leaves
    [get_suggestions]: a failed request, an HTTP error status, a body that
    is not JSON, a body that is not an object with a "suggestions" field,
    and a "suggestions" field that is not a list each give the empty
    list.  When "suggestions" is a list of objects the result is the
    "value" fields of the items that have one, in response order; for any
    list it is that or the empty list.  What does leave the function is
    the operator's interrupt during the request; when the operator does
    not interrupt, the call returns. *)
Theorem suggestions_or_empty :
  forall (lib : library) (env : environment) (session : Session)
         (seed : string) (w : world),
    match fst (get_suggestions lib env session seed w) with
    | Ret _ => True
    | Raise e => e = KeyboardInterrupt /\ exists t, ctrl_c env t = true
    end
    /\ (no_interrupt env ->
        exists l, fst (get_suggestions lib env session seed w) = Ret l)
    /\ (forall e w1,
           session_get env session (suggestion_url lib seed)
                       REQUEST_TIMEOUT w = (Raise e, w1) ->
           is_Exception e = true ->
           fst (get_suggestions lib env session seed w) = Ret [])
    /\ (forall resp w1,
           session_get env session (suggestion_url lib seed)
                       REQUEST_TIMEOUT w = (Ret resp, w1) ->
           (status_ok resp = false ->
            fst (get_suggestions lib env session seed w) = Ret [])
           /\ (status_ok resp = true ->
               json_loads lib (text resp) = None ->
               fst (get_suggestions lib env session seed w) = Ret [])
           /\ (forall data,
                  status_ok resp = true ->
                  json_loads lib (text resp) = Some data ->
                  (forall entries,
                      data = VDict entries ->
                      dict_get "suggestions" entries = None) ->
                  fst (get_suggestions lib env session seed w) = Ret [])
           /\ (forall entries v,
                  status_ok resp = true ->
                  json_loads lib (text resp) = Some (VDict entries) ->
                  dict_get "suggestions" entries = Some v ->
                  is_list v = false ->
                  fst (get_suggestions lib env session seed w) = Ret [])
           /\ (forall entries items,
                  status_ok resp = true ->
                  json_loads lib (text resp) = Some (VDict entries) ->
                  dict_get "suggestions" entries = Some (VList items) ->
                  (Forall (fun v => is_dict v = true) items ->
                   fst (get_suggestions lib env session seed w)
                   = Ret (field_values items))
                  /\ (fst (get_suggestions lib env session seed w)
                      = Ret (field_values items)
                      \/ fst (get_suggestions lib env session seed w)
                         = Ret []))).
Proof.
  intros lib env session seed w.
  assert (Hcases :
            match fst (get_suggestions lib env session seed w) with
            | Ret _ => True
            | Raise e => interrupt_of env e
            end).
  { destruct (get_suggestions lib env session seed w) as [[l|e] w1]
      eqn:Hrun; simpl; [exact I|].
    eapply raises_get_suggestions. exact Hrun. }
  split; [exact Hcases|]. split.
  { intros Hquiet.
    destruct (fst (get_suggestions lib env session seed w)) as [l|e];
      [eauto|].
    destruct Hcases as [_ [t Ht]]. rewrite Hquiet in Ht. discriminate Ht. }
  split; [intros e w1; apply get_suggestions_request_failed|].
  intros resp w1 Hget.
  rewrite (get_suggestions_after_response _ _ _ _ _ _ _ Hget).
  split; [|split; [|split; [|split]]].
  - intros Hstatus.
    apply handled_gives_empty
      with (w1 := w1) (e := RequestException "HTTPError");
      [|reflexivity].
    unfold read_suggestions, raise_for_status.
    unfold status_ok in Hstatus. apply negb_false_iff in Hstatus.
    rewrite Hstatus. reflexivity.
  - intros Hstatus Hjson.
    apply handled_gives_empty
      with (w1 := w1) (e := RequestException "JSONDecodeError");
      [|reflexivity].
    unfold read_suggestions, raise_for_status.
    unfold status_ok in Hstatus. apply negb_true_iff in Hstatus.
    rewrite Hstatus. unfold bind at 1. unfold ret at 1.
    unfold bind at 1. unfold response_json. rewrite Hjson. reflexivity.
  - intros data Hstatus Hjson Hnone.
    unfold try_except.
    rewrite (read_suggestions_data lib resp data w1 Hstatus Hjson).
    destruct data; try reflexivity.
    rewrite (Hnone entries eq_refl). reflexivity.
  - intros entries v Hstatus Hjson Hfield Hlist.
    pose proof (read_suggestions_data lib resp _ w1 Hstatus Hjson) as Hread.
    cbv beta iota in Hread. rewrite Hfield in Hread.
    unfold bind, lift in Hread.
    destruct (py_iter v) as [items|e] eqn:Hiter.
    + pose proof (py_iter_not_list v items Hlist Hiter) as Hno.
      destruct (values_of_any items) as [Hv | (e & Hv & He)];
        rewrite Hv in Hread.
      * rewrite (field_values_no_dict items Hno) in Hread.
        unfold try_except. rewrite Hread. reflexivity.
      * apply handled_gives_empty with (w1 := w1) (e := e); assumption.
    + apply handled_gives_empty with (w1 := w1) (e := e);
        [exact Hread | apply (py_iter_raises v); exact Hiter].
  - intros entries items Hstatus Hjson Hfield.
    rewrite <- (get_suggestions_after_response _ _ _ _ _ _ _ Hget).
    destruct (get_suggestions_list lib env session seed w w1 resp entries
                items Hget Hstatus Hjson Hfield)
      as [[Hv Hrun] | [[e He] Hrun]].
    + rewrite Hrun. simpl. auto.
    + split; [|right; exact Hrun].
      intros Hdicts. rewrite (values_of_dicts items Hdicts) in He.
      discriminate He.
Qed.

Lemma suggestions_or_empty_witness :
  fst (get_suggestions Sample.lib Sample.env_ok create_session
                       "coloring book for" Sample.world0)
  = Ret [ VStr "coloring book for adults"; VStr "coloring book for kids" ].
Proof.
  destruct (suggestions_or_empty Sample.lib Sample.env_ok create_session
                                 "coloring book for" Sample.world0)
    as (_ & _ & _ & Hresp).
  assert (Hget : exists w1,
             session_get Sample.env_ok create_session
                         (suggestion_url Sample.lib "coloring book for")
                         REQUEST_TIMEOUT Sample.world0
             = (Ret (mkResponse 200 "body"), w1)).
  { eexists. vm_compute. reflexivity. }
  destruct Hget as [w1 Hget].
  destruct (Hresp _ _ Hget) as (_ & _ & _ & _ & Hlist).
  destruct (Hlist [("suggestions", VList Sample.items)] Sample.items
                  eq_refl eq_refl eq_refl) as [Hdicts _].
  apply Hdicts. repeat constructor.
Defined.

(** Against C5 as the specification states it ([get_suggestions] never
    raises): an interrupt by the operator while the request is under way
    leaves it as a [KeyboardInterrupt]. *)
Lemma suggestions_interrupted :
  get_suggestions Sample.lib Sample.env_interrupted create_session
                  "coloring book for" Sample.world0
  = (Raise KeyboardInterrupt, mkWorld 1 [] [] [] [])
  /\ is_Exception KeyboardInterrupt = false.
Proof. split; [vm_compute; reflexivity | reflexivity]. Qed.






(* ================================================================== *)
(** * Niche discovery *)

Lemma count_fetches_snoc (tr : list event) (e : event) :
  count_fetches (tr ++ [e])
  = (count_fetches tr + (if is_count_fetch e then 1 else 0))%nat.
Proof.
  unfold count_fetches. rewrite filter_app, length_app. simpl.
  destruct (is_count_fetch e); reflexivity.
Qed.

Lemma backoff_sleep_no_count_fetch (env : environment) (r : Retry)
      (n : nat) (w : world) :
  count_fetches (trace (snd (backoff_sleep env r n w)))
  = count_fetches (trace w).
Proof.
  apply (preserves_backoff_sleep
           (fun w1 w2 => count_fetches (trace w2) = count_fetches (trace w1))
           (fun e => is_count_fetch e = false)); auto.
  - intros w1 w2 w3 H12 H23. rewrite H23. exact H12.
  - intros e w0 He. simpl. rewrite count_fetches_snoc, He. lia.
Qed.

(** A request for another URL than a search page fetches no count,
    however often it is retried. *)
Lemma urlopen_no_count_fetch (env : environment) (r : Retry) (url : string)
      (timeout : Z) :
  is_count_fetch (Attempt url timeout) = false ->
  forall (n errors : nat) (w : world),
    count_fetches (trace (snd (urlopen env r n errors url timeout w)))
    = count_fetches (trace w).
Proof.
  intros Hurl.
  assert (Hstep : forall (w : world),
             count_fetches (trace w ++ [Attempt url timeout])
             = count_fetches (trace w)).
  { intros w. rewrite count_fetches_snoc, Hurl. lia. }
  induction n as [|n IH]; intros errors w; simpl;
    unfold blocking, emit, tick, raise, ret, bind; simpl;
    destruct (ctrl_c env (clock w)); simpl; try reflexivity;
    destruct (server env (clock w) url) as [status body|msg]; simpl;
    try apply Hstep.
  - destruct (in_forcelist status r); simpl; apply Hstep.
  - destruct (in_forcelist status r); simpl; [|apply Hstep].
    match goal with
    | |- context [backoff_sleep env r ?k ?w1] =>
        pose proof (backoff_sleep_no_count_fetch env r k w1) as Hs;
        destruct (backoff_sleep env r k w1) as [[u|e] w2]
    end; simpl in *.
    + rewrite IH, Hs. apply Hstep.
    + rewrite Hs. apply Hstep.
  - match goal with
    | |- context [backoff_sleep env r ?k ?w1] =>
        pose proof (backoff_sleep_no_count_fetch env r k w1) as Hs;
        destruct (backoff_sleep env r k w1) as [[u|e] w2]
    end; simpl in *.
    + rewrite IH, Hs. apply Hstep.
    + rewrite Hs. apply Hstep.
Qed.

Lemma suggestion_url_no_count_fetch (lib : library) (seed : string)
      (timeout : Z) :
  is_count_fetch (Attempt (suggestion_url lib seed) timeout) = false.
Proof. reflexivity. Qed.

Lemma get_suggestions_no_count_fetch (lib : library) (env : environment)
      (session : Session) (seed : string) (w : world) :
  count_fetches (trace (snd (get_suggestions lib env session seed w)))
  = count_fetches (trace w).
Proof.
  unfold get_suggestions.
  pose proof (urlopen_no_count_fetch env (max_retries session)
                (suggestion_url lib seed) REQUEST_TIMEOUT
                (suggestion_url_no_count_fetch lib seed REQUEST_TIMEOUT)
                (Z.to_nat (total (max_retries session))) 0 w) as Hget.
  fold (session_get env session (suggestion_url lib seed)
                    REQUEST_TIMEOUT) in Hget.
  pose (R := fun w1 w2 : world =>
               count_fetches (trace w2) = count_fetches (trace w1)).
  assert (Hrefl : forall w0, R w0 w0) by reflexivity.
  assert (Htrans : forall a b c, R a b -> R b c -> R a c).
  { unfold R. intros a b c Hab Hbc. rewrite Hbc. exact Hab. }
  assert (Hlog : forall l m w0, R w0 (snd (log l m w0))) by reflexivity.
  destruct (session_get env session (suggestion_url lib seed)
                        REQUEST_TIMEOUT w) as [[resp|e] w1];
    simpl in Hget; rewrite <- Hget.
  - exact (preserves_try_except R Htrans _ _
             (preserves_read_suggestions R Hrefl Htrans Hlog lib resp)
             (preserves_suggestions_handler R Hrefl Htrans Hlog
                                            (Some resp)) w1).
  - exact (preserves_try_except R Htrans _ _
             (preserves_raise R Hrefl e)
             (preserves_suggestions_handler R Hrefl Htrans Hlog None) w1).
Qed.

(** The loop adds one sample per suggestion, in order, behind the samples
    it started with. *)
Lemma collect_counts_returns (lib : library) (env : environment)
      (session : Session) (suggestions : list value) :
  forall results w out w',
    collect_counts lib env session suggestions results w = (Ret out, w') ->
    exists added,
      out = results ++ added
      /\ map fst added = suggestions
      /\ Forall (fun r : sample => snd r = -1 \/ 0 <= snd r) added.
Proof.
  induction suggestions as [|s rest IH]; intros results w out w' H.
  - simpl in H. inversion H; subst. exists []. rewrite app_nil_r. auto.
  - simpl in H. unfold bind in H.
    destruct (random_pause env w) as [[u|e] w1]; [|discriminate H].
    destruct (get_result_count lib env session s w1) as [[count|e] w2]
      eqn:Hcount; [|discriminate H].
    simpl in H. apply IH in H.
    destruct H as (added & -> & Hmap & Hall).
    exists ((s, count) :: added). rewrite <- app_assoc. simpl.
    split; [reflexivity|]. split; [f_equal; exact Hmap|].
    constructor; [|exact Hall].
    simpl. eapply returns_get_result_count. exact Hcount.
Qed.

Lemma raises_collect_counts (lib : library) (env : environment)
      (session : Session) (suggestions : list value) :
  forall results,
    raises_only (interrupt_of env)
                (collect_counts lib env session suggestions results).
Proof.
  induction suggestions as [|s rest IH]; intros results; simpl.
  - apply raises_only_ret.
  - apply raises_only_bind.
    { unfold random_pause. apply raises_only_bind;
        [apply raises_blocking | intros _; apply raises_only_emit]. }
    intros _. apply raises_only_bind; [apply raises_get_result_count|].
    intros count. apply raises_only_bind; [apply raises_only_log|].
    intros _. apply IH.
Qed.

(** [discover_niches] by the outcome of [get_suggestions]. *)
Lemma discover_niches_cases (lib : library) (env : environment)
      (seed : string) (w : world) :
  discover_niches lib env seed w
  = match get_suggestions lib env create_session seed
                          (after_seed_log seed w) with
    | (Ret [], w2) => (Ret [], snd (log ERROR MsgNoSuggestions w2))
    | (Ret (s :: rest), w2) =>
        collect_counts lib env create_session (s :: rest) [] w2
    | (Raise e, w2) => (Raise e, w2)
    end.
Proof.
  unfold discover_niches, after_seed_log.
  unfold bind at 1. unfold log at 1. simpl.
  unfold bind at 1.
  match goal with
  | |- context [get_suggestions lib env create_session seed ?w1] =>
      destruct (get_suggestions lib env create_session seed w1)
        as [[suggestions|e] w2]
  end; [|reflexivity].
  destruct suggestions; reflexivity.
Qed.

Lemma raises_discover_niches (lib : library) (env : environment)
      (seed : string) :
  raises_only (interrupt_of env) (discover_niches lib env seed).
Proof.
  unfold discover_niches.
  apply raises_only_bind; [apply raises_only_log|]. intros _.
  apply raises_only_bind; [apply raises_get_suggestions|].
  intros suggestions. destruct suggestions.
  - apply raises_only_bind; [apply raises_only_log|].
    intros _. apply raises_only_ret.
  - apply raises_collect_counts.
Qed.

(** C2. When [get_suggestions] returns a non-empty list, [discover_niches]
    is the loop over it: whenever it returns, its result has exactly one
    sample per suggestion, in the order of the suggestions, each with a
    count that is -1 or non-negative; and it does return unless the
    operator interrupts.  When [get_suggestions] returns the empty list,
    [discover_niches] returns the empty list at once: it logs one error,
    sends nothing more and fetches no count. *)
Theorem discover_niches_one_sample_per_suggestion :
  forall (lib : library) (env : environment) (seed : string) (w : world),
    (forall suggestions w2,
        get_suggestions lib env create_session seed (after_seed_log seed w)
        = (Ret suggestions, w2) ->
        suggestions <> [] ->
        discover_niches lib env seed w
        = collect_counts lib env create_session suggestions [] w2
        /\ (forall results w3,
               discover_niches lib env seed w = (Ret results, w3) ->
               map fst results = suggestions
               /\ List.length results = List.length suggestions
               /\ Forall (fun r : sample => snd r = -1 \/ 0 <= snd r)
                         results)
        /\ (no_interrupt env ->
            exists results w3,
              discover_niches lib env seed w = (Ret results, w3)))
    /\ (forall w2,
           get_suggestions lib env create_session seed
                           (after_seed_log seed w)
           = (Ret [], w2) ->
           discover_niches lib env seed w
           = (Ret [], snd (log ERROR MsgNoSuggestions w2))
           /\ trace (snd (discover_niches lib env seed w)) = trace w2
           /\ count_fetches (trace (snd (discover_niches lib env seed w)))
              = count_fetches (trace w)).
Proof.
  intros lib env seed w. split.
  - intros suggestions w2 Hsug Hne.
    assert (Hloop : discover_niches lib env seed w
                    = collect_counts lib env create_session suggestions []
                                     w2).
    { rewrite discover_niches_cases, Hsug.
      destruct suggestions; [contradiction Hne|]; reflexivity. }
    split; [exact Hloop|]. split.
    + intros results w3 Hrun. rewrite Hloop in Hrun.
      apply collect_counts_returns in Hrun.
      destruct Hrun as (added & -> & Hmap & Hall). simpl.
      split; [exact Hmap|]. split; [|exact Hall].
      rewrite <- Hmap. symmetry. apply length_map.
    + intros Hquiet.
      destruct (discover_niches lib env seed w) as [[results|e] w3]
        eqn:Hrun; [eauto|].
      apply raises_discover_niches in Hrun.
      destruct Hrun as [_ [t Ht]]. rewrite Hquiet in Ht. discriminate Ht.
  - intros w2 Hsug.
    assert (Hrun : discover_niches lib env seed w
                   = (Ret [], snd (log ERROR MsgNoSuggestions w2))).
    { rewrite discover_niches_cases, Hsug. reflexivity. }
    split; [exact Hrun|]. rewrite Hrun. split; [reflexivity|]. simpl.
    pose proof (get_suggestions_no_count_fetch
                  lib env create_session seed (after_seed_log seed w))
      as Hkeep.
    rewrite Hsug in Hkeep. exact Hkeep.
Qed.

Lemma discover_niches_one_sample_per_suggestion_witness :
  no_interrupt Sample.env_ok
  /\ exists results w3,
       discover_niches Sample.lib Sample.env_ok "coloring book for"
                       Sample.world0 = (Ret results, w3)
       /\ map fst results
          = [ VStr "coloring book for adults";
              VStr "coloring book for kids" ].
Proof.
  split; [intros t; reflexivity|].
  destruct (discover_niches_one_sample_per_suggestion
              Sample.lib Sample.env_ok "coloring book for" Sample.world0)
    as [Hloop _].
  assert (Hsug : exists w2,
             get_suggestions Sample.lib Sample.env_ok create_session
                             "coloring book for"
                             (after_seed_log "coloring book for"
                                             Sample.world0)
             = (Ret [ VStr "coloring book for adults";
                      VStr "coloring book for kids" ], w2)).
  { eexists. vm_compute. reflexivity. }
  destruct Hsug as [w2 Hsug].
  destruct (Hloop _ _ Hsug) as (_ & Hone & Hreturns); [discriminate|].
  destruct Hreturns as (results & w3 & Hrun); [intros t; reflexivity|].
  exists results, w3. split; [exact Hrun|].
  apply (Hone results w3 Hrun).
Defined.

(* ================================================================== *)
(** * The exit status *)

Lemma raises_open_append (env : environment) :
  raises_only (fun e => is_Exception e = true) (open_append env).
Proof.
  unfold open_append. apply raises_only_bind; [apply raises_only_tick|].
  intros t. destruct (disk env t);
    [apply raises_only_raise; reflexivity | apply raises_only_ret].
Qed.

Lemma raises_file_write (env : environment) (x : written) :
  raises_only (fun e => is_Exception e = true) (file_write env x).
Proof.
  unfold file_write. apply raises_only_bind; [apply raises_only_tick|].
  intros t. destruct (disk env t);
    [apply raises_only_raise; reflexivity|].
  intros w e w' H. discriminate H.
Qed.

Lemma raises_write_lines (env : environment) (l : list sample) :
  raises_only (fun e => is_Exception e = true) (write_lines env l).
Proof.
  induction l as [|[keyword count] rest IH]; simpl.
  - apply raises_only_ret.
  - apply raises_only_bind; [apply raises_only_print|]. intros _.
    apply raises_only_bind; [apply raises_file_write|]. intros _.
    exact IH.
Qed.

(** The reporting step can fail only with an [Exception] (of a file
    operation). *)
Lemma raises_report (env : environment) (limit : Z)
      (niche_results : list sample) :
  raises_only (fun e => is_Exception e = true)
              (report env limit niche_results).
Proof.
  unfold report.
  apply raises_only_bind; [apply raises_only_print|]. intros _.
  apply raises_only_bind; [apply raises_open_append|]. intros _.
  apply raises_only_bind; [apply raises_file_write|]. intros _.
  destruct (low_competition limit niche_results);
    [apply raises_only_print | apply raises_write_lines].
Qed.

(** How the body of the top-level [try] can end, by what
    [get_suggestions] returned. *)
Lemma main_body_cases (lib : library) (env : environment)
      (args : arguments) (w : world) :
  match main_body lib env args w with
  | (Ret _, _) =>
      exists s rest w2,
        get_suggestions lib env create_session (seed args)
                        (after_seed_log (seed args) w)
        = (Ret (s :: rest), w2)
  | (Raise (SystemExit c), _) =>
      c = 1
      /\ exists w2,
           get_suggestions lib env create_session (seed args)
                           (after_seed_log (seed args) w)
           = (Ret [], w2)
  | (Raise KeyboardInterrupt, _) =>
      (exists t, ctrl_c env t = true)
      /\ forall w2,
           get_suggestions lib env create_session (seed args)
                           (after_seed_log (seed args) w)
           <> (Ret [], w2)
  | (Raise e, _) =>
      is_Exception e = true
      /\ forall w2,
           get_suggestions lib env create_session (seed args)
                           (after_seed_log (seed args) w)
           <> (Ret [], w2)
  end.
Proof.
  unfold main_body, bind. rewrite discover_niches_cases.
  destruct (get_suggestions lib env create_session (seed args)
                            (after_seed_log (seed args) w))
    as [[suggestions|e] w2] eqn:Hsug.
  - destruct suggestions as [|s rest].
    + simpl. split; [reflexivity | eauto].
    + destruct (collect_counts lib env create_session (s :: rest) [] w2)
        as [[results|e] w3] eqn:Hloop.
      * apply collect_counts_returns in Hloop.
        destruct Hloop as (added & -> & Hmap & _). simpl in *.
        destruct added as [|r added]; [discriminate Hmap|].
        destruct (report env (threshold args) (r :: added) w3)
          as [[u|e] w4] eqn:Hreport; [eauto|].
        apply raises_report in Hreport.
        destruct e; try discriminate Hreport;
          (split; [reflexivity | intros w2' H; discriminate H]).
      * apply raises_collect_counts in Hloop.
        destruct Hloop as [-> Ht].
        split; [exact Ht | intros w2' H; discriminate H].
  - apply raises_get_suggestions in Hsug. destruct Hsug as [-> Ht].
    split; [exact Ht | intros w2' H; discriminate H].
Qed.

(** C7. From the parsed arguments on, the exit status is 0 or 1.  It is 1
    exactly when [get_suggestions] returned no suggestion or an exception
    of class [Exception] left the body of the top-level [try]; otherwise
    it is 0.  In particular it is 0 when the operator interrupts the run,
    and 0 when suggestions and counts were obtained and the report could
    be written, whether or not any sample passed the threshold filter. *)
Theorem exit_status :
  forall (lib : library) (env : environment) (args : arguments)
         (w : world),
    (fst (main lib env args w) = 0 \/ fst (main lib env args w) = 1)
    /\ (fst (main lib env args w) = 1
        <-> (exists w2,
                get_suggestions lib env create_session (seed args)
                                (after_seed_log (seed args) w)
                = (Ret [], w2))
            \/ (exists e w',
                   main_body lib env args w = (Raise e, w')
                   /\ is_Exception e = true))
    /\ (forall w',
           main_body lib env args w = (Raise KeyboardInterrupt, w') ->
           fst (main lib env args w) = 0)
    /\ (forall results w1,
           discover_niches lib env (seed args) w = (Ret results, w1) ->
           results <> [] ->
           disk_ok env ->
           fst (main lib env args w) = 0).
Proof.
  intros lib env args w.
  pose proof (main_body_cases lib env args w) as Hcases.
  split; [|split; [|split]].
  - unfold main.
    destruct (main_body lib env args w) as [[u|e] w1]; [left; reflexivity|].
    destruct e; simpl; auto.
    destruct Hcases as [-> _]. right. reflexivity.
  - unfold main.
    destruct (main_body lib env args w) as [[u|e] w1] eqn:Hbody.
    + simpl. split; [discriminate|].
      destruct Hcases as (s & rest & w2 & Hsug).
      intros [[w2' H] | (e & w' & H & _)]; [|discriminate H].
      rewrite Hsug in H. discriminate H.
    + destruct e; simpl.
      * split; [|reflexivity]. intros _. right. eauto.
      * split; [|reflexivity]. intros _. right. eauto.
      * split; [discriminate|].
        destruct Hcases as [_ Hnot].
        intros [[w2 H] | (e & w' & H & He)].
        -- contradiction (Hnot w2 H).
        -- inversion H; subst. discriminate He.
      * destruct Hcases as [-> Hsug].
        split; [|reflexivity]. intros _. left. exact Hsug.
  - intros w' Hbody. unfold main. rewrite Hbody. reflexivity.
  - intros results w1 Hdisc Hne Hdisk. unfold main, main_body, bind.
    rewrite Hdisc.
    destruct results as [|r rest]; [contradiction Hne; reflexivity|].
    destruct (report_disk_ok env (threshold args) (r :: rest) w1 Hdisk)
      as (w' & Hrun & _).
    rewrite Hrun. reflexivity.
Qed.

Lemma exit_status_witness :
  fst (main Sample.lib Sample.env_interrupted Sample.args Sample.world0) = 0
  /\ fst (main Sample.lib (Sample.env_status 503) Sample.args
               Sample.world0) = 1
  /\ (reported 5 [ (VStr "coloring book for adults", 12);
                   (VStr "coloring book for kids", 12) ] = []
      /\ fst (main Sample.lib Sample.env_ok (mkArgs "coloring book for" 5)
                   Sample.world0) = 0).
Proof.
  split; [|split; [|split; [reflexivity|]]].
  - destruct (exit_status Sample.lib Sample.env_interrupted Sample.args
                          Sample.world0) as (_ & _ & Hint & _).
    eapply Hint. vm_compute. reflexivity.
  - destruct (exit_status Sample.lib (Sample.env_status 503) Sample.args
                          Sample.world0) as (_ & Hone & _).
    apply Hone. left. eexists. vm_compute. reflexivity.
  - destruct (exit_status Sample.lib Sample.env_ok
                          (mkArgs "coloring book for" 5) Sample.world0)
      as (_ & _ & _ & Hdone).
    eapply (Hdone [ (VStr "coloring book for adults", 12);
                    (VStr "coloring book for kids", 12) ]).
    + vm_compute. reflexivity.
    + discriminate.
    + intros t. reflexivity.
Defined.

(* ================================================================== *)
(** * The order of the report among equal counts *)

Lemma with_count_insert (c : Z) (x : sample) (l : list sample) :
  with_count c (insert_by_count x l)
  = if snd x =? c then x :: with_count c l else with_count c l.
Proof.
  unfold with_count.
  induction l as [|y l IH]; simpl.
  - destruct (snd x =? c); reflexivity.
  - destruct (snd x <=? snd y) eqn:Hxy; simpl.
    + destruct (snd x =? c); reflexivity.
    + rewrite IH. apply Z.leb_gt in Hxy.
      destruct (snd x =? c) eqn:Hx; [|reflexivity].
      apply Z.eqb_eq in Hx.
      replace (snd y =? c) with false; [reflexivity|].
      symmetry. apply Z.eqb_neq. lia.
Qed.

Lemma with_count_sorted (c : Z) (l : list sample) :
  with_count c (sorted_by_count l) = with_count c l.
Proof.
  induction l as [|x l IH]; simpl; [reflexivity|].
  rewrite with_count_insert, IH.
  unfold with_count. simpl. destruct (snd x =? c); reflexivity.
Qed.

Lemma with_count_low_competition (c limit : Z) (l : list sample) :
  with_count c (low_competition limit l)
  = if (0 <? c) && (c <? limit) then with_count c l else [].
Proof.
  unfold with_count, low_competition.
  induction l as [|x l IH]; simpl.
  - destruct ((0 <? c) && (c <? limit)); reflexivity.
  - unfold qualifies at 1.
    destruct (snd x =? c) eqn:Hx.
    + apply Z.eqb_eq in Hx. rewrite Hx.
      destruct ((0 <? c) && (c <? limit)) eqn:Hq; simpl.
      * rewrite Hx, Z.eqb_refl, IH. reflexivity.
      * exact IH.
    + destruct ((0 <? snd x) && (snd x <? limit)); simpl;
        [rewrite Hx|]; exact IH.
Qed.

(** X1. The report keeps the discovery order among samples of equal
    count: for every count [c] strictly between 0 and the threshold, the
    reported samples with count [c] are the discovered samples with count
    [c], in the order of discovery; for any other [c] there is none. *)
Theorem report_order_stable :
  forall (limit : Z) (niche_results : list sample) (c : Z),
    with_count c (reported limit niche_results)
    = if (0 <? c) && (c <? limit) then with_count c niche_results else [].
Proof.
  intros limit niche_results c. unfold reported.
  rewrite with_count_sorted. apply with_count_low_competition.
Qed.

(* ================================================================== *)
(** * Reports of reports *)

Lemma insert_by_count_front (x : sample) (l : list sample) :
  Forall (fun y => snd x <= snd y) l -> insert_by_count x l = x :: l.
Proof.
  intros H. destruct l as [|y l]; simpl; [reflexivity|].
  inversion H as [|? ? Hxy _]; subst.
  apply Z.leb_le in Hxy. rewrite Hxy. reflexivity.
Qed.

Lemma filter_insert_by_count (P : sample -> bool) (x : sample)
      (l : list sample) :
  non_decreasing l ->
  filter P (insert_by_count x l)
  = if P x then insert_by_count x (filter P l) else filter P l.
Proof.
  unfold non_decreasing.
  induction l as [|y l IH]; intros Hs; simpl.
  - destruct (P x); reflexivity.
  - inversion Hs as [|? ? Hl Hy]; subst.
    destruct (snd x <=? snd y) eqn:Hxy; simpl.
    + apply Z.leb_le in Hxy.
      destruct (P x); [|reflexivity].
      symmetry. apply insert_by_count_front.
      assert (Hall : Forall (fun z => snd x <= snd z) (y :: l)).
      { constructor; [exact Hxy|].
        rewrite Forall_forall in *. intros z Hz.
        specialize (Hy z Hz). lia. }
      rewrite Forall_forall in *. intros z Hz.
      apply Hall. change (In z (filter P (y :: l))) in Hz.
      apply filter_In in Hz. tauto.
    + rewrite (IH Hl).
      destruct (P y), (P x); simpl; try rewrite Hxy; reflexivity.
Qed.

Lemma filter_sorted_by_count (P : sample -> bool) (l : list sample) :
  filter P (sorted_by_count l) = sorted_by_count (filter P l).
Proof.
  induction l as [|x l IH]; simpl; [reflexivity|].
  rewrite filter_insert_by_count by apply sorted_by_count_sorted.
  rewrite IH. destruct (P x); reflexivity.
Qed.

Lemma low_competition_twice (t1 t2 : Z) (l : list sample) :
  t1 <= t2 ->
  low_competition t1 (low_competition t2 l) = low_competition t1 l.
Proof.
  intros Ht. unfold low_competition.
  induction l as [|x l IH]; simpl; [reflexivity|].
  destruct (qualifies t2 x) eqn:H2; simpl.
  - rewrite IH. reflexivity.
  - rewrite IH.
    replace (qualifies t1 x) with false; [reflexivity|].
    symmetry. apply not_true_iff_false. intros H1.
    apply qualifies_iff in H1.
    apply not_true_iff_false in H2. apply H2.
    apply qualifies_iff. lia.
Qed.

(** X2. A report can be narrowed afterwards: filtering and sorting the
    reported samples of a threshold [t2] with a threshold [t1] that is
    not larger gives the report of [t1] on the discovered samples; in
    particular reporting a report with its own threshold changes
    nothing. *)
Theorem report_of_report :
  forall (t1 t2 : Z) (niche_results : list sample),
    t1 <= t2 ->
    reported t1 (reported t2 niche_results) = reported t1 niche_results.
Proof.
  intros t1 t2 niche_results Ht. unfold reported.
  unfold low_competition at 1.
  rewrite filter_sorted_by_count.
  fold (low_competition t1 (low_competition t2 niche_results)).
  rewrite (low_competition_twice t1 t2 niche_results Ht).
  apply sorted_by_count_fixed, sorted_by_count_sorted.
Qed.

Lemma report_of_report_witness :
  1000 <= 2000
  /\ reported 1000 (reported 2000 Sample.samples)
     = reported 1000 Sample.samples.
Proof.
  split; [lia|].
  apply (report_of_report 1000 2000 Sample.samples). lia.
Defined.
(* ================================================================== *)
(** * The screen and the file *)


Lemma discover_niches_silent (lib : library) (env : environment)
      (seed : string) (w : world) :
  stdout (snd (discover_niches lib env seed w)) = stdout w
  /\ niche_file (snd (discover_niches lib env seed w)) = niche_file w.
Proof.
  apply (preserves_discover_niches
           (fun w1 w2 => stdout w2 = stdout w1
                         /\ niche_file w2 = niche_file w1)
           (fun _ => True));
    try (intros; split; reflexivity); auto.
  intros w1 w2 w3 [H12 H12'] [H23 H23'].
  rewrite H23, H23'. auto.
Qed.


(* ================================================================== *)
(** * What one call sends and logs *)

Lemma attempts_app (l1 l2 : list event) :
  attempts (l1 ++ l2) = (attempts l1 + attempts l2)%nat.
Proof. unfold attempts. rewrite filter_app, length_app. reflexivity. Qed.

Lemma after_requests_refl (url : string) (timeout : Z) (limit : nat)
      (w : world) :
  after_requests url timeout limit w w.
Proof.
  exists []. rewrite app_nil_r.
  repeat split; auto. unfold attempts. simpl. lia.
Qed.

Lemma after_requests_trans (url : string) (timeout : Z) (n1 n2 : nat)
      (w1 w2 w3 : world) :
  after_requests url timeout n1 w1 w2 ->
  after_requests url timeout n2 w2 w3 ->
  after_requests url timeout (n1 + n2) w1 w3.
Proof.
  intros (new1 & Ht1 & Hf1 & Ha1 & Ho1 & Hs1 & Hn1)
         (new2 & Ht2 & Hf2 & Ha2 & Ho2 & Hs2 & Hn2).
  exists (new1 ++ new2).
  rewrite Ht2, Ht1, Ho2, Ho1, Hs2, Hs1, Hn2, Hn1, app_assoc, attempts_app.
  repeat split; auto; [apply Forall_app; auto | lia].
Qed.

Lemma backoff_sleep_after_requests (env : environment) (r : Retry)
      (k : nat) (url : string) (timeout : Z) (w : world) :
  after_requests url timeout 0 w (snd (backoff_sleep env r k w)).
Proof.
  unfold backoff_sleep.
  destruct (get_backoff_time r k <=? 0);
    [apply after_requests_refl|].
  unfold blocking, emit, tick, raise, ret, bind. simpl.
  destruct (ctrl_c env (clock w)); simpl.
  - exists []. rewrite app_nil_r. repeat split; auto.
  - exists [Backoff (get_backoff_time r k)].
    repeat split; auto. constructor; [exact I | constructor].
Qed.

(** One call of [session.get] talks to its URL only. *)
Lemma urlopen_after_requests (env : environment) (r : Retry) (url : string)
      (timeout : Z) :
  forall (n errors : nat) (w : world),
    after_requests url timeout (S n) w
                   (snd (urlopen env r n errors url timeout w)).
Proof.
  assert (Hone : forall w : world,
             after_requests url timeout 1 w
               (mkWorld (S (clock w)) (trace w ++ [Attempt url timeout])
                        (oplog w) (stdout w) (niche_file w))).
  { intros w. exists [Attempt url timeout].
    repeat split; auto. constructor; [split; reflexivity | constructor]. }
  assert (Hnone : forall (w : world) k,
             after_requests url timeout k w
               (mkWorld (S (clock w)) (trace w) (oplog w) (stdout w)
                        (niche_file w))).
  { intros w k. exists []. simpl. rewrite app_nil_r.
    repeat split; auto. unfold attempts. simpl. lia. }
  assert (Hweak : forall n1 n2 w1 w2,
             (n1 <= n2)%nat ->
             after_requests url timeout n1 w1 w2 ->
             after_requests url timeout n2 w1 w2).
  { intros n1 n2 w1 w2 Hle (new & H1 & H2 & H3 & H4).
    exists new. repeat split; try tauto. lia. }
  induction n as [|n IH]; intros errors w; simpl;
    unfold blocking, emit, tick, raise, ret, bind; simpl;
    destruct (ctrl_c env (clock w)); simpl; try apply Hnone;
    destruct (server env (clock w) url) as [status body|msg]; simpl;
    try apply Hone.
  - destruct (in_forcelist status r); simpl; apply Hone.
  - destruct (in_forcelist status r); simpl;
      [|apply (Hweak 1%nat); [lia | apply Hone]].
    match goal with
    | |- context [backoff_sleep env r ?k ?w1] =>
        pose proof (backoff_sleep_after_requests env r k url timeout w1)
          as Hs;
        pose proof (Hone w) as H1;
        destruct (backoff_sleep env r k w1) as [[u|e] w2]
    end; simpl in *.
    + apply (Hweak (1 + 0 + S n)%nat); [lia|].
      eapply after_requests_trans; [|apply IH].
      eapply after_requests_trans; [exact H1 | exact Hs].
    + apply (Hweak (1 + 0)%nat); [lia|].
      eapply after_requests_trans; [exact H1 | exact Hs].
  - match goal with
    | |- context [backoff_sleep env r ?k ?w1] =>
        pose proof (backoff_sleep_after_requests env r k url timeout w1)
          as Hs;
        pose proof (Hone w) as H1;
        destruct (backoff_sleep env r k w1) as [[u|e] w2]
    end; simpl in *.
    + apply (Hweak (1 + 0 + S n)%nat); [lia|].
      eapply after_requests_trans; [|apply IH].
      eapply after_requests_trans; [exact H1 | exact Hs].
    + apply (Hweak (1 + 0)%nat); [lia|].
      eapply after_requests_trans; [exact H1 | exact Hs].
Qed.
Lemma try_except_bind {A B} (c : M A) (k : A -> M B)
      (h : exn -> option (M B)) (w : world) :
  try_except (x <- c ;; k x) h w
  = match c w with
    | (Ret a, w1) => try_except (k a) h w1
    | (Raise e, w1) => try_except (raise e) h w1
    end.
Proof.
  unfold try_except, bind, raise.
  destruct (c w) as [[a|e] w1]; reflexivity.
Qed.

Lemma logs_nil (w : world) : logs [] w w.
Proof. unfold logs. rewrite app_nil_r. auto. Qed.

Lemma logs_one (l : level) (m : message) (w : world) :
  logs [(l, m)] w (snd (log l m w)).
Proof. unfold logs. simpl. auto. Qed.

(** An exception in the body of [get_result_count]: one error record and
    the sentinel, unless the exception is not an [Exception]. *)
Lemma count_raise_effect (keyword : value) (e : exn) (w : world) :
  (is_Exception e = true
   /\ exists r,
        no_count_record keyword r
        /\ try_except (raise e) (count_handler keyword) w
           = (Ret (-1), snd (log (fst r) (snd r) w)))
  \/ (is_Exception e = false
      /\ try_except (raise e) (count_handler keyword) w = (Raise e, w)).
Proof.
  unfold try_except, raise, count_handler.
  destruct e as [msg|cls msg| |code]; simpl.
  - left. split; [reflexivity|].
    exists (ERROR, MsgCountRequestError keyword msg).
    split; [right; left; eauto | reflexivity].
  - left. split; [reflexivity|].
    exists (ERROR, MsgCountUnexpected keyword msg).
    split; [right; right; eauto | reflexivity].
  - right. auto.
  - right. auto.
Qed.

(** From the response on, [get_result_count] returns, and it has logged
    one record exactly when it returns the sentinel. *)
Lemma count_tail_effect (lib : library) (keyword : value) (resp : response)
      (w : world) :
  exists z recs w',
    try_except
      (raise_for_status resp ;;
       page <- BeautifulSoup lib (text resp) ;;
       extract_count keyword page)
      (count_handler keyword) w = (Ret z, w')
    /\ logs recs w w'
    /\ ((0 <= z /\ recs = [])
        \/ (z = -1 /\ exists r, no_count_record keyword r /\ recs = [r])).
Proof.
  assert (Hfail : forall e body,
             is_Exception e = true ->
             body w = (Raise e, w) ->
             exists z recs w',
               try_except body (count_handler keyword) w = (Ret z, w')
               /\ logs recs w w'
               /\ ((0 <= z /\ recs = [])
                   \/ (z = -1 /\ exists r,
                          no_count_record keyword r /\ recs = [r]))).
  { intros e body He Hbody.
    destruct (count_raise_effect keyword e w) as [(_ & r & Hr & Hrun)|[H _]];
      [|congruence].
    unfold try_except in *. rewrite Hbody. unfold raise in Hrun.
    exists (-1), [r], (snd (log (fst r) (snd r) w)).
    split; [exact Hrun|].
    split; [destruct r; apply logs_one|].
    right. eauto. }
  unfold raise_for_status.
  destruct ((400 <=? status_code resp) && (status_code resp <? 600)).
  { apply (Hfail (RequestException "HTTPError")); reflexivity. }
  unfold BeautifulSoup.
  destruct (html_parser lib (text resp)) as [page|] eqn:Hparse.
  2:{ apply (Hfail (PyException "ParserRejectedMarkup" EmptyString)); reflexivity. }
  unfold extract_count, try_except, bind, ret. cbv beta iota.
  destruct (try_selectors selectors page) as [r|] eqn:Hsel.
  - destruct (try_selectors_nonneg _ _ _ Hsel) as (z & -> & Hz).
    exists z, [], w. split; [reflexivity|].
    split; [apply logs_nil | left; auto].
  - exists (-1), [(WARNING, MsgNoCount keyword)],
           (snd (log WARNING (MsgNoCount keyword) w)).
    split; [reflexivity|].
    split; [apply logs_one|].
    right. split; [reflexivity|]. eexists. split; [left|]; reflexivity.
Qed.

(** One call of [get_result_count]: first the requests, then at most one
    record in the log. *)
Lemma get_result_count_effect (lib : library) (env : environment)
      (session : Session) (keyword : value) (w : world) :
  exists w1 recs,
    match keyword with
    | VStr s =>
        after_requests (search_url lib s) REQUEST_TIMEOUT
                       (S (Z.to_nat (total (max_retries session)))) w w1
    | _ => w1 = w
    end
    /\ logs recs w1 (snd (get_result_count lib env session keyword w))
    /\ match fst (get_result_count lib env session keyword w) with
       | Ret z =>
           (0 <= z /\ recs = [])
           \/ (z = -1 /\ exists r, no_count_record keyword r /\ recs = [r])
       | Raise _ => recs = []
       end.
Proof.
  unfold get_result_count. rewrite try_except_bind.
  assert (Hother :
            (forall s, keyword <> VStr s) ->
            quote_keyword lib keyword w
            = (Raise (PyException "TypeError"
                                  "quote_from_bytes() expected bytes"), w)).
  { intros Hk. destruct keyword; try reflexivity.
    exfalso. apply (Hk s). reflexivity. }
  assert (Hraise : forall e w1,
             exists recs,
               logs recs w1
                    (snd (try_except (raise e) (count_handler keyword) w1))
               /\ match fst (try_except (raise e) (count_handler keyword)
                                        w1) with
                  | Ret z =>
                      (0 <= z /\ recs = [])
                      \/ (z = -1 /\ exists r,
                             no_count_record keyword r /\ recs = [r])
                  | Raise _ => recs = []
                  end).
  { intros e w1.
    destruct (count_raise_effect keyword e w1)
      as [(_ & r & Hr & ->)|[_ ->]]; simpl.
    - exists [r]. split; [destruct r; apply logs_one|]. right. eauto.
    - exists []. split; [apply logs_nil | reflexivity]. }
  destruct keyword as [ |b|lit|s|items|entries];
    try (rewrite Hother by (intros s0 H0; discriminate H0);
         destruct (Hraise (PyException "TypeError"
                             "quote_from_bytes() expected bytes") w)
           as (recs & H1 & H2);
         exists w, recs; split; [reflexivity | split; assumption]).
  unfold quote_keyword, ret. rewrite try_except_bind.
  fold (search_url lib s).
  pose proof (urlopen_after_requests env (max_retries session)
                (search_url lib s) REQUEST_TIMEOUT
                (Z.to_nat (total (max_retries session))) 0 w) as Hget.
  fold (session_get env session (search_url lib s) REQUEST_TIMEOUT) in Hget.
  destruct (session_get env session (search_url lib s) REQUEST_TIMEOUT w)
    as [[resp|e] w1]; simpl in Hget.
  - destruct (count_tail_effect lib (VStr s) resp w1)
      as (z & recs & w' & Hrun & Hlogs & Hz).
    rewrite Hrun. exists w1, recs. simpl. auto.
  - destruct (Hraise e w1) as (recs & H1 & H2).
    exists w1, recs. auto.
Qed.


(* ================================================================== *)
(** * What [get_suggestions] sends and logs *)

Lemma suggestions_raise_effect (resp : option response) (e : exn)
      (w : world) :
  (is_Exception e = true
   /\ exists recs w',
        try_except (raise e) (suggestions_handler resp) w = (Ret [], w')
        /\ logs recs w w'
        /\ recs <> []
        /\ Forall suggestions_record recs)
  \/ (is_Exception e = false
      /\ try_except (raise e) (suggestions_handler resp) w = (Raise e, w)).
Proof.
  unfold try_except, raise, suggestions_handler.
  destruct e as [msg|cls msg| |code]; simpl.
  - left. split; [reflexivity|].
    eexists [(ERROR, MsgSuggestionsRequestError msg)], _.
    split; [reflexivity|].
    split; [unfold logs; simpl; auto|].
    split; [discriminate|].
    constructor; [exact I | constructor].
  - left. split; [reflexivity|].
    eexists [(ERROR, MsgSuggestionsUnexpected msg);
             (ERROR, MsgResponseContent (option_map text resp))], _.
    split; [reflexivity|].
    split; [unfold logs; simpl; rewrite <- app_assoc; auto|].
    split; [discriminate|].
    repeat constructor.
  - right. auto.
  - right. auto.
Qed.

(** From the response on: a result, or the warning of line 111 with the
    empty list, or an [Exception] for the handlers. *)
Lemma read_suggestions_effect (lib : library) (resp : response)
      (w : world) :
  (exists l, read_suggestions lib resp w = (Ret l, w))
  \/ read_suggestions lib resp w
     = (Ret [], snd (log WARNING MsgUnexpectedFormat w))
  \/ (exists e,
        is_Exception e = true
        /\ read_suggestions lib resp w = (Raise e, w)).
Proof.
  unfold read_suggestions, raise_for_status.
  destruct ((400 <=? status_code resp) && (status_code resp <? 600)).
  { right. right. eexists. split; [|reflexivity]. reflexivity. }
  unfold response_json.
  destruct (json_loads lib (text resp)) as [data|].
  2:{ right. right. eexists. split; [|reflexivity]. reflexivity. }
  unfold bind, ret. cbv beta iota.
  destruct data as [ |b|lit|s|items|entries];
    try (right; left; reflexivity).
  destruct (dict_get "suggestions" entries) as [suggestions|];
    [|right; left; reflexivity].
  unfold lift.
  destruct (py_iter suggestions) as [items|e] eqn:Hiter.
  - destruct (values_of items) as [l|e] eqn:Hvalues.
    + left. eauto.
    + right. right. exists e. split; [|reflexivity].
      destruct (values_of_any items) as [H|(e' & H & He)];
        rewrite Hvalues in H; [discriminate H|].
      inversion H; subst. exact He.
  - right. right. exists e. split; [|reflexivity].
    apply (py_iter_raises _ _ Hiter).
Qed.

(** One call of [get_suggestions]: first the requests, then the records
    of a failure, which come with the empty list. *)
Lemma get_suggestions_effect (lib : library) (env : environment)
      (session : Session) (seed : string) (w : world) :
  exists w1 recs,
    after_requests (suggestion_url lib seed) REQUEST_TIMEOUT
                   (S (Z.to_nat (total (max_retries session)))) w w1
    /\ logs recs w1 (snd (get_suggestions lib env session seed w))
    /\ Forall suggestions_record recs
    /\ match fst (get_suggestions lib env session seed w) with
       | Ret l => recs = [] \/ l = []
       | Raise _ => recs = []
       end.
Proof.
  unfold get_suggestions.
  pose proof (urlopen_after_requests env (max_retries session)
                (suggestion_url lib seed) REQUEST_TIMEOUT
                (Z.to_nat (total (max_retries session))) 0 w) as Hget.
  fold (session_get env session (suggestion_url lib seed) REQUEST_TIMEOUT)
    in Hget.
  assert (Hraise : forall resp e w1,
             exists recs,
               logs recs w1
                 (snd (try_except (raise e) (suggestions_handler resp) w1))
               /\ Forall suggestions_record recs
               /\ match fst (try_except (raise e)
                                        (suggestions_handler resp) w1) with
                  | Ret l => recs = [] \/ l = []
                  | Raise _ => recs = []
                  end).
  { intros resp e w1.
    destruct (suggestions_raise_effect resp e w1)
      as [(_ & recs & w' & -> & Hl & _ & Hr)|[_ ->]]; simpl.
    - exists recs. auto.
    - exists []. split; [apply logs_nil | auto]. }
  destruct (session_get env session (suggestion_url lib seed)
                        REQUEST_TIMEOUT w) as [[resp|e] w1];
    simpl in Hget; exists w1.
  - destruct (read_suggestions_effect lib resp w1)
      as [[l Hrun]|[Hrun|(e & He & Hrun)]].
    + exists []. unfold try_except. rewrite Hrun. simpl.
      split; [exact Hget|]. split; [apply logs_nil | auto].
    + exists [(WARNING, MsgUnexpectedFormat)].
      unfold try_except. rewrite Hrun.
      split; [exact Hget|]. split; [apply logs_one|].
      split; [repeat constructor | right; reflexivity].
    + destruct (Hraise (Some resp) e w1) as (recs & H1 & H2 & H3).
      exists recs. unfold try_except in *. rewrite Hrun.
      unfold raise in *. auto.
  - destruct (Hraise None e w1) as (recs & H1 & H2 & H3).
    exists recs. auto.
Qed.


(* ================================================================== *)
(** * The rounds of the discovery loop *)

Lemma logged_counts_app (l1 l2 : list (level * message)) :
  logged_counts (l1 ++ l2) = logged_counts l1 ++ logged_counts l2.
Proof. unfold logged_counts. apply flat_map_app. Qed.

Lemma logged_counts_no_count (keyword : value) (r : level * message) :
  no_count_record keyword r -> logged_counts [r] = [].
Proof. intros [->|[[err ->]|[err ->]]]; reflexivity. Qed.

Lemma logged_counts_suggestions (recs : list (level * message)) :
  Forall suggestions_record recs -> logged_counts recs = [].
Proof.
  induction 1 as [|[l m] recs Hr _ IH]; [reflexivity|].
  unfold logged_counts in *. simpl. rewrite IH.
  destruct l, m; try contradiction; reflexivity.
Qed.




(** The loop of lines 172-177, when it runs to its end: one round per
    suggestion on the wire, and one record of line 176 per sample in the
    log. *)
Lemma collect_counts_rounds (lib : library) (env : environment)
      (session : Session) (suggestions : list value) :
  forall results w out w',
    collect_counts lib env session suggestions results w = (Ret out, w') ->
    exists rounds added,
      trace w' = trace w ++ List.concat rounds
      /\ Forall2 (round_of lib (S (Z.to_nat (total (max_retries session)))))
                 suggestions rounds
      /\ out = results ++ added
      /\ logged_counts (oplog w') = logged_counts (oplog w) ++ added.
Proof.
  induction suggestions as [|s rest IH]; intros results w out w' H.
  - simpl in H. inversion H; subst. exists [], [].
    simpl. rewrite !app_nil_r. auto using Forall2_nil.
  - simpl in H. unfold bind in H.
    unfold random_pause, blocking, tick, emit, raise, ret, bind in H.
    simpl in H.
    destruct (ctrl_c env (clock w)); [discriminate H|].
    match type of H with
    | context [get_result_count lib env session s ?wa] =>
        destruct (get_result_count_effect lib env session s wa)
          as (w1 & recs & Hreq & Hlogs & Hres);
        destruct (get_result_count lib env session s wa)
          as [[count|e] w2]; [|discriminate H]
    end.
    simpl in H, Hlogs, Hres. apply IH in H.
    destruct H as (rounds & added & Htrace & Hrounds & -> & Hlog).
    destruct Hlogs as (_ & Ht2 & Ho2 & _).
    simpl in Htrace, Hlog.
    assert (Hcount : logged_counts recs = []).
    { destruct Hres as [[_ ->]|(_ & r & Hr & ->)];
        [reflexivity | exact (logged_counts_no_count s r Hr)]. }
    assert (H1 : exists reqs,
               trace w1 = (trace w ++ [Pause]) ++ reqs
               /\ (attempts reqs
                   <= S (Z.to_nat (total (max_retries session))))%nat
               /\ match s with
                  | VStr k =>
                      Forall (request_to (search_url lib k) REQUEST_TIMEOUT)
                             reqs
                  | _ => reqs = []
                  end
               /\ oplog w1 = oplog w).
    { destruct s;
        try (subst w1; exists []; simpl; rewrite app_nil_r;
             repeat split; auto; unfold attempts; simpl; lia).
      destruct Hreq as (new & Ha & Hb & Hc & Hd & _).
      exists new. simpl in Ha, Hd. auto. }
    destruct H1 as (reqs & Ht1 & Hatt & Hto & Ho1).
    exists ((Pause :: reqs) :: rounds), ((s, count) :: added).
    split.
    { rewrite Htrace, Ht2, Ht1. simpl.
      rewrite <- !app_assoc. reflexivity. }
    split.
    { constructor; [|exact Hrounds]. exists reqs. auto. }
    split.
    { rewrite <- app_assoc. reflexivity. }
    rewrite Hlog, Ho2, Ho1, !logged_counts_app, Hcount. simpl.
    rewrite app_nil_r, <- app_assoc. reflexivity.
Qed.

(** A run of [discover_niches] that returns: the requests for the
    suggestions, then the rounds. *)
Lemma discover_niches_rounds (lib : library) (env : environment)
      (seed : string) (w : world) (results : list sample) (w3 : world) :
  discover_niches lib env seed w = (Ret results, w3) ->
  exists first rounds,
    trace w3 = trace w ++ first ++ List.concat rounds
    /\ Forall (request_to (suggestion_url lib seed) REQUEST_TIMEOUT) first
    /\ (attempts first <= 4)%nat
    /\ Forall2 (round_of lib 4) (map fst results) rounds
    /\ logged_counts (oplog w3) = logged_counts (oplog w) ++ results.
Proof.
  rewrite discover_niches_cases. intros H.
  destruct (get_suggestions_effect lib env create_session seed
                                   (after_seed_log seed w))
    as (w1 & recs & (first & Ht1 & Hfirst & Hatt & Ho1 & _)
        & (_ & Ht2 & Ho2 & _) & Hrecs & _).
  simpl in Ht1, Ho1.
  assert (Hlog2 : forall w2,
             oplog w2 = (oplog w ++ [(INFO, MsgSeed seed)]) ++ recs ->
             logged_counts (oplog w2) = logged_counts (oplog w)).
  { intros w2 ->. rewrite !logged_counts_app.
    rewrite (logged_counts_suggestions recs Hrecs). simpl.
    rewrite !app_nil_r. reflexivity. }
  destruct (get_suggestions lib env create_session seed
                            (after_seed_log seed w))
    as [[[|s rest]|e] w2]; simpl in Ht2, Ho2; [| |discriminate H].
  - inversion H; subst. exists first, []. simpl.
    rewrite app_nil_r, Ht2, Ht1.
    repeat split; auto using Forall2_nil.
    rewrite !app_nil_r, logged_counts_app. simpl. rewrite app_nil_r.
    apply Hlog2. rewrite Ho2, Ho1. reflexivity.
  - pose proof (collect_counts_returns _ _ _ _ _ _ _ _ H)
      as (added' & Hout & Hmap & _).
    apply collect_counts_rounds in H.
    destruct H as (rounds & added & Htrace & Hrounds & -> & Hlog).
    simpl in Hout. subst added'.
    exists first, rounds. simpl app in *.
    rewrite Htrace, Ht2, Ht1, Hmap, <- app_assoc.
    repeat split; auto.
    rewrite Hlog. f_equal. apply Hlog2. rewrite Ho2, Ho1. reflexivity.
Qed.



(** X9. The log mirrors the result: when [discover_niches] returns, the
    records of line 176 that the run added to the log show exactly the
    returned samples, keyword and count, in the order of the result; no
    other step of the run writes such a record. *)
Theorem discovery_log_mirrors_result :
  forall (lib : library) (env : environment) (seed : string) (w : world)
         (results : list sample) (w3 : world),
    discover_niches lib env seed w = (Ret results, w3) ->
    logged_counts (oplog w3) = logged_counts (oplog w) ++ results.
Proof.
  intros lib env seed w results w3 H.
  destruct (discover_niches_rounds lib env seed w results w3 H)
    as (first & rounds & _ & _ & _ & _ & Hlog).
  exact Hlog.
Qed.

Lemma discovery_log_mirrors_result_witness :
  exists results w3,
    discover_niches Sample.lib Sample.env_ok "coloring book for"
                    Sample.world0 = (Ret results, w3)
    /\ logged_counts (oplog w3)
       = logged_counts (oplog Sample.world0) ++ results.
Proof.
  assert (Hrun : exists results w3,
             discover_niches Sample.lib Sample.env_ok "coloring book for"
                             Sample.world0 = (Ret results, w3)).
  { eexists. eexists. vm_compute. reflexivity. }
  destruct Hrun as (results & w3 & Hrun).
  exists results, w3. split; [exact Hrun|].
  exact (discovery_log_mirrors_result Sample.lib Sample.env_ok
           "coloring book for" Sample.world0 results w3 Hrun).
Defined.
(* ================================================================== *)
(** * How a run ends *)

(** X10. A run without suggestions ends empty-handed: when
    [get_suggestions] returns the empty list, the run ends with status 1
    after adding the two errors of lines 168 and 192 to the log; it
    sends nothing more, prints nothing and leaves the niche file as it
    was. *)
Theorem no_suggestions_ends_the_run :
  forall (lib : library) (env : environment) (args : arguments)
         (w w2 : world),
    get_suggestions lib env create_session (seed args)
                    (after_seed_log (seed args) w) = (Ret [], w2) ->
    main lib env args w
    = (1, mkWorld (clock w2) (trace w2)
                  (oplog w2 ++ [(ERROR, MsgNoSuggestions);
                                (ERROR, MsgNoResults)])
                  (stdout w) (niche_file w)).
Proof.
  intros lib env args w w2 H.
  destruct (get_suggestions_effect lib env create_session (seed args)
                                   (after_seed_log (seed args) w))
    as (w1 & recs & (new & _ & _ & _ & _ & Hs1 & Hf1)
        & (_ & _ & _ & Hs2 & Hf2) & _).
  rewrite H in Hs2, Hf2. simpl in Hs1, Hf1, Hs2, Hf2.
  unfold main, main_body. unfold bind at 1.
  rewrite discover_niches_cases, H.
  unfold log, raise, bind. simpl.
  rewrite Hs2, Hs1, Hf2, Hf1, <- app_assoc. reflexivity.
Qed.

Lemma no_suggestions_ends_the_run_witness :
  exists w2,
    get_suggestions Sample.lib (Sample.env_status 503) create_session
                    (seed Sample.args)
                    (after_seed_log (seed Sample.args) Sample.world0)
    = (Ret [], w2)
    /\ fst (main Sample.lib (Sample.env_status 503) Sample.args
                 Sample.world0) = 1.
Proof.
  assert (Hsug : exists w2,
             get_suggestions Sample.lib (Sample.env_status 503)
                             create_session (seed Sample.args)
                             (after_seed_log (seed Sample.args)
                                             Sample.world0)
             = (Ret [], w2)).
  { eexists. vm_compute. reflexivity. }
  destruct Hsug as [w2 Hsug]. exists w2. split; [exact Hsug|].
  rewrite (no_suggestions_ends_the_run Sample.lib (Sample.env_status 503)
             Sample.args Sample.world0 w2 Hsug).
  reflexivity.
Defined.

(** X11. A niche file that cannot be opened costs the report: when the
    discovery returned samples and [open] fails, the run ends with status
    1 having printed the header only; the file is untouched, and the
    failure is in the log as the traceback of line 214. *)
Theorem unopenable_file_ends_the_run :
  forall (lib : library) (env : environment) (args : arguments)
         (w w1 : world) (results : list sample) (msg : string),
    discover_niches lib env (seed args) w = (Ret results, w1) ->
    results <> [] ->
    disk env (clock w1) = Some msg ->
    main lib env args w
    = (1, mkWorld (S (clock w1)) (trace w1)
                  (oplog w1 ++ [(ERROR,
                                 MsgTraceback (PyException "OSError" msg))])
                  (stdout w ++ [Header (threshold args)])
                  (niche_file w)).
Proof.
  intros lib env args w w1 results msg Hrun Hne Hdisk.
  destruct (discover_niches_silent lib env (seed args) w) as [Hs Hf].
  rewrite Hrun in Hs, Hf. simpl in Hs, Hf.
  unfold main, main_body. unfold bind at 1. rewrite Hrun.
  destruct results as [|r rest]; [contradiction Hne; reflexivity|].
  unfold report, open_append, print, tick, raise, bind. simpl.
  rewrite Hdisk. simpl. rewrite Hs, Hf. reflexivity.
Qed.

Lemma unopenable_file_ends_the_run_witness :
  exists results w1 msg,
    discover_niches Sample.lib Faults.env_read_only (seed Sample.args)
                    Sample.world0 = (Ret results, w1)
    /\ results <> []
    /\ disk Faults.env_read_only (clock w1) = Some msg
    /\ fst (main Sample.lib Faults.env_read_only Sample.args
                 Sample.world0) = 1.
Proof.
  assert (Hrun : exists r rest w1,
             discover_niches Sample.lib Faults.env_read_only
                             (seed Sample.args) Sample.world0
             = (Ret (r :: rest), w1)).
  { eexists. eexists. eexists. vm_compute. reflexivity. }
  destruct Hrun as (r & rest & w1 & Hrun).
  exists (r :: rest), w1, "Permission denied".
  split; [exact Hrun|]. split; [discriminate|]. split; [reflexivity|].
  rewrite (unopenable_file_ends_the_run Sample.lib Faults.env_read_only
             Sample.args Sample.world0 w1 (r :: rest) "Permission denied"
             Hrun);
    [reflexivity | discriminate | reflexivity].
Defined.

(** X12. An interrupted discovery reports nothing: [discover_niches] can
    only be left by the operator's interrupt, and then the run ends with
    status 0 having printed the cancellation message and nothing else;
    the samples collected so far are dropped, the niche file is
    untouched and nothing more is added to the log. *)
Theorem interrupted_discovery_reports_nothing :
  forall (lib : library) (env : environment) (args : arguments)
         (w w1 : world) (e : exn),
    discover_niches lib env (seed args) w = (Raise e, w1) ->
    e = KeyboardInterrupt
    /\ main lib env args w
       = (0, mkWorld (clock w1) (trace w1) (oplog w1)
                     (stdout w ++ [Cancelled]) (niche_file w)).
Proof.
  intros lib env args w w1 e Hrun.
  destruct (discover_niches_silent lib env (seed args) w) as [Hs Hf].
  rewrite Hrun in Hs, Hf. simpl in Hs, Hf.
  destruct (raises_discover_niches lib env (seed args) _ _ _ Hrun)
    as [-> _].
  split; [reflexivity|].
  unfold main, main_body. unfold bind at 1. rewrite Hrun.
  unfold print. simpl. rewrite Hs, Hf. reflexivity.
Qed.

Lemma interrupted_discovery_reports_nothing_witness :
  exists e w1,
    discover_niches Sample.lib Sample.env_interrupted (seed Sample.args)
                    Sample.world0 = (Raise e, w1)
    /\ e = KeyboardInterrupt
    /\ fst (main Sample.lib Sample.env_interrupted Sample.args
                 Sample.world0) = 0.
Proof.
  assert (Hrun : exists e w1,
             discover_niches Sample.lib Sample.env_interrupted
                             (seed Sample.args) Sample.world0
             = (Raise e, w1)).
  { eexists. eexists. vm_compute. reflexivity. }
  destruct Hrun as (e & w1 & Hrun).
  exists e, w1. split; [exact Hrun|].
  destruct (interrupted_discovery_reports_nothing
              Sample.lib Sample.env_interrupted Sample.args Sample.world0
              w1 e Hrun) as [He Hmain].
  split; [exact He|]. rewrite Hmain. reflexivity.
Defined.
(* ================================================================== *)
(** * Reading a number of results *)

Lemma is_number_shape (g : Text.chars) :
  is_number g = true <-> number_shape g.
Proof.
  unfold is_number, number_shape. split.
  - destruct g as [|d tl]; [discriminate|].
    rewrite andb_true_iff, forallb_forall. intros [Hd Htl].
    exists d, tl. rewrite Forall_forall. auto.
  - intros (d & tl & -> & Hd & Htl).
    rewrite andb_true_iff, forallb_forall.
    rewrite Forall_forall in Htl. auto.
Qed.

Lemma digits_acc_value (ds : Text.chars) :
  Forall (fun c => Text.is_digit c = true) ds ->
  forall prev acc,
    prev = true \/ ds <> [] ->
    Text.digits_acc prev acc ds
    = Some (fold_left (fun a c => 10 * a + Text.digit_value c) ds acc).
Proof.
  induction 1 as [|c ds Hc Hds IH]; intros prev acc Hne;
    cbn [Text.digits_acc fold_left].
  - destruct Hne as [-> | Hne]; [reflexivity | contradiction Hne; reflexivity].
  - rewrite Hc. apply IH. left. reflexivity.
Qed.

Lemma count_of_number_value (g : Text.chars) :
  number_shape g ->
  count_of_match (Some g) = Ret (decimal_value (Text.remove_commas g)).
Proof.
  intros Hg. destruct (remove_commas_digits g Hg) as (d & ds & Hrm & Hall).
  unfold count_of_match, Text.py_int, decimal_value.
  rewrite Hrm, (strip_digits _ Hall).
  assert (Hd : Text.is_digit d = true) by (inversion Hall; assumption).
  destruct (digit_not_sign d Hd) as [H45 H43]. rewrite H45, H43.
  rewrite (digits_acc_value (d :: ds) Hall false 0)
    by (right; discriminate).
  reflexivity.
Qed.














(* ================================================================== *)
(** * The time spent backing off *)




(* ================================================================== *)
(** * Where a count comes from *)

Lemma occurs_in_refl (g : Text.chars) : occurs_in g g.
Proof. exists [], []. simpl. rewrite app_nil_r. reflexivity. Qed.

Lemma occurs_in_app_l (g s extra : Text.chars) :
  occurs_in g s -> occurs_in g (extra ++ s).
Proof.
  intros (b & a & ->). exists (extra ++ b), a.
  rewrite <- app_assoc. reflexivity.
Qed.

Lemma occurs_in_app_r (g s extra : Text.chars) :
  occurs_in g s -> occurs_in g (s ++ extra).
Proof.
  intros (b & a & ->). exists b, (a ++ extra).
  rewrite <- !app_assoc. reflexivity.
Qed.

(** A match consumes a prefix of the input, and a group it sets is a
    piece of what it consumed. *)
Lemma rmatch_consumes {A} (r : Text.regex) :
  forall g s (k : option Text.chars -> Text.chars -> option A) a,
    Text.rmatch r g s k = Some a ->
    exists g' consumed rest,
      s = consumed ++ rest
      /\ k g' rest = Some a
      /\ (g' = g \/ exists cap, g' = Some cap /\ occurs_in cap consumed).
Proof.
  induction r as [c|p|r1 IH1 r2 IH2|p|r IH]; intros g s k a H;
    cbn [Text.rmatch] in H.
  - destruct s as [|x s]; [discriminate H|].
    destruct (Ascii.eqb x c); [|discriminate H].
    exists g, [x], s. auto.
  - destruct s as [|x s]; [discriminate H|].
    destruct (p x); [|discriminate H].
    exists g, [x], s. auto.
  - apply IH1 in H.
    destruct H as (g1 & c1 & rest1 & -> & H & Hg1).
    apply IH2 in H.
    destruct H as (g2 & c2 & rest2 & -> & H & Hg2).
    exists g2, (c1 ++ c2), rest2.
    split; [apply app_assoc|]. split; [exact H|].
    destruct Hg2 as [->|(cap & -> & Hcap)].
    + destruct Hg1 as [->|(cap & -> & Hcap)]; [left; reflexivity|].
      right. exists cap. split; [reflexivity|].
      apply occurs_in_app_r. exact Hcap.
    + right. exists cap. split; [reflexivity|].
      apply occurs_in_app_l. exact Hcap.
  - apply star_cls_inv in H.
    destruct H as (pre & rest & -> & _ & H).
    exists g, pre, rest. auto.
  - apply IH in H.
    destruct H as (g1 & consumed & rest & -> & H & _).
    replace (firstn (List.length (consumed ++ rest) - List.length rest)
                    (consumed ++ rest)) with consumed in H.
    + exists (Some consumed), consumed, rest.
      split; [reflexivity|]. split; [exact H|].
      right. exists consumed. split; [reflexivity | apply occurs_in_refl].
    + rewrite length_app.
      replace (List.length consumed + List.length rest
               - List.length rest)%nat
        with (List.length consumed) by lia.
      rewrite firstn_app, Nat.sub_diag, firstn_all. simpl.
      symmetry. apply app_nil_r.
Qed.

(** Group 1 of a match found by [re.search] is a piece of the text. *)
Lemma search_from_occurs (r : Text.regex) :
  forall s cap,
    Text.search_from r s = Some (Some cap) -> occurs_in cap s.
Proof.
  assert (Hhere : forall s cap,
             Text.rmatch r None s (fun g _ => Some g) = Some (Some cap) ->
             occurs_in cap s).
  { intros s cap H. apply rmatch_consumes in H.
    destruct H as (g' & consumed & rest & -> & Hk & Hg).
    inversion Hk; subst g'.
    destruct Hg as [H|(cap' & H & Hcap)]; [discriminate H|].
    inversion H; subst cap'. apply occurs_in_app_r. exact Hcap. }
  induction s as [|c s IH]; intros cap H; simpl in H.
  - destruct (Text.rmatch r None [] (fun g _ => Some g)) as [g|] eqn:Hm;
      [|discriminate H].
    inversion H; subst g. apply Hhere. exact Hm.
  - destruct (Text.rmatch r None (c :: s) (fun g _ => Some g))
      as [g|] eqn:Hm.
    + inversion H; subst g. apply Hhere. exact Hm.
    + apply (occurs_in_app_l cap s [c]). apply IH. exact H.
Qed.

(** The result of the inner loop is the value of a number that the text
    shows. *)
Lemma try_patterns_from_text (txt : string) (r : outcome Z) :
  try_patterns patterns txt = Some r ->
  exists g,
    occurs_in g (list_ascii_of_string txt)
    /\ is_number g = true
    /\ r = Ret (decimal_value (Text.remove_commas g)).
Proof.
  intros H. apply try_patterns_some in H.
  destruct H as (ps1 & p & ps2 & m & Hps & _ & Hsearch & ->).
  assert (Hp : captures_number p).
  { apply patterns_capture_number. rewrite Hps.
    apply in_or_app. right. left. reflexivity. }
  unfold Text.re_search in Hsearch.
  destruct (search_captures_number p Hp _ _ Hsearch) as (cap & -> & Hcap).
  exists cap. split; [apply (search_from_occurs p); exact Hsearch|].
  split; [apply is_number_shape; exact Hcap|].
  apply count_of_number_value. exact Hcap.
Qed.

Lemma occurs_in_In (g s : Text.chars) (c : ascii) :
  occurs_in g s -> In c g -> In c s.
Proof.
  intros (b & a & ->) Hc.
  apply in_or_app. right. apply in_or_app. left. exact Hc.
Qed.

(** X16. A count is always read off the page: when the two loops give a
    count, there are a selector and its first element such that the
    element's text shows a number (a digit followed by digits and commas,
    consecutive in the text) whose value, separators dropped, is the
    count.  So a page whose selected elements show no digit gives the
    warning of line 152 and -1. *)
Theorem count_comes_from_the_page :
  forall (keyword : value) (page : Soup.soup) (w : world),
    (forall z w',
        extract_count keyword page w = (Ret z, w') ->
        z <> -1 ->
        exists sel el g,
          In sel selectors
          /\ Soup.find (fst sel) (snd sel) page = Some el
          /\ occurs_in g (list_ascii_of_string (Soup.get_text el))
          /\ is_number g = true
          /\ z = decimal_value (Text.remove_commas g))
    /\ ((forall sel el,
            In sel selectors ->
            Soup.find (fst sel) (snd sel) page = Some el ->
            all_chars (fun c => negb (Text.is_digit c)) (Soup.get_text el)
            = true) ->
        extract_count keyword page w
        = (Ret (-1), snd (log WARNING (MsgNoCount keyword) w))).
Proof.
  intros keyword page w.
  assert (Hsome : forall r,
             try_selectors selectors page = Some r ->
             exists sel el g,
               In sel selectors
               /\ Soup.find (fst sel) (snd sel) page = Some el
               /\ occurs_in g (list_ascii_of_string (Soup.get_text el))
               /\ is_number g = true
               /\ r = Ret (decimal_value (Text.remove_commas g))).
  { intros r H. apply try_selectors_some in H.
    destruct H as (s1 & sel & s2 & Hsels & _ & Hsel).
    unfold selector_number in Hsel.
    destruct (Soup.find (fst sel) (snd sel) page) as [el|] eqn:Hfind;
      [|discriminate Hsel].
    apply try_patterns_from_text in Hsel.
    destruct Hsel as (g & Hocc & Hnum & ->).
    exists sel, el, g. repeat split; auto.
    rewrite Hsels. apply in_or_app. right. left. reflexivity. }
  unfold extract_count.
  destruct (try_selectors selectors page) as [r|] eqn:Hsel.
  - destruct (Hsome r eq_refl) as (sel & el & g & Hin & Hfind & Hocc
                                   & Hnum & ->).
    split.
    + intros z w' H _. inversion H; subst.
      exists sel, el, g. auto.
    + intros Hnodigit. exfalso.
      specialize (Hnodigit sel el Hin Hfind).
      unfold all_chars in Hnodigit. rewrite forallb_forall in Hnodigit.
      destruct g as [|d tl]; [discriminate Hnum|].
      simpl in Hnum. apply andb_true_iff in Hnum. destruct Hnum as [Hd _].
      assert (Hind : In d (list_ascii_of_string (Soup.get_text el))).
      { apply (occurs_in_In (d :: tl)); [exact Hocc | left; reflexivity]. }
      specialize (Hnodigit d Hind). rewrite Hd in Hnodigit.
      discriminate Hnodigit.
  - split; [|reflexivity].
    intros z w' H Hz. inversion H; subst. contradiction Hz. reflexivity.
Qed.

Lemma count_comes_from_the_page_witness :
  exists z w',
    extract_count (VStr "cats") Sample.page_two_bars Sample.world0
    = (Ret z, w')
    /\ z <> -1
    /\ exists sel el g,
         In sel selectors
         /\ Soup.find (fst sel) (snd sel) Sample.page_two_bars = Some el
         /\ occurs_in g (list_ascii_of_string (Soup.get_text el))
         /\ is_number g = true
         /\ z = decimal_value (Text.remove_commas g).
Proof.
  exists 12, Sample.world0.
  split; [reflexivity|]. split; [discriminate|].
  destruct (count_comes_from_the_page (VStr "cats") Sample.page_two_bars
                                      Sample.world0) as [Hfrom _].
  apply (Hfrom 12 Sample.world0); [reflexivity | discriminate].
Defined.
